(** * car_gazebo_plugin: the control core of CarGazeboPlugin

    A shallow embedding of [car_gazebo_plugin/src/car_gazebo_plugin.cpp]:
    the constructor, [Load] (joint discovery, role binding, PID gain
    installation, topic creation) and [Update] (the gated joint-state
    publisher), with the properties of the design document proved on it.

    C++ [double] values are Rocq's primitive binary64 floats, so literals
    such as [0.1] denote the same value the compiler gives them.  Maps keyed
    by joint name are [gmap string _].  Simulation time is a count of
    nanoseconds, taken within the range of gazebo's 32-bit seconds.

    Left out: logging, the physics engine's friction parameter, and the
    reliability and durability settings of the joint-state publisher. *)

From Stdlib Require Import ZArith Lia List.
From Stdlib Require Import Floats.PrimFloat Numbers.Cyclic.Int63.Uint63.
From stdpp Require Import base option list gmap strings.

Set Warnings "-inexact-float".

Local Open Scope Z_scope.

(** ** Doubles *)

(** [static_cast<double>] of a signed integer. *)
Definition Z2F (z : Z) : float :=
  if z <? 0 then PrimFloat.opp (PrimFloat.of_uint63 (Uint63.of_Z (- z)))
  else PrimFloat.of_uint63 (Uint63.of_Z z).

(** ** Simulation time (gazebo::common::Time)

    Gazebo keeps a time as whole seconds plus nanoseconds of the same sign;
    here it is the total number of nanoseconds.  [operator-] is subtraction,
    [== 0] compares with the zero time. *)
Definition Time : Type := Z.

Definition nsInSec : Z := 1000000000.

Definition sec (t : Time) : Z := Z.quot t nsInSec.
Definition nsec (t : Time) : Z := Z.rem t nsInSec.

(** [Time::Double()]: [double(sec) + double(nsec) * 1e-9]. *)
Definition Double (t : Time) : float :=
  PrimFloat.add (Z2F (sec t))
    (PrimFloat.mul (Z2F (nsec t)) 1e-9%float).

(** ** Joints, PIDs and the joint controller of the physics engine *)

(** Gazebo's entity types are bits of a mask: [GetType()] returns the mask
    of all the types of an entity.  Every joint carries [JOINT]; a fixed
    joint carries [FIXED_JOINT] as well. *)
Definition JOINT : Z := 0x40.
Definition FIXED_JOINT : Z := 0x4000.

Record Joint : Type := mkJoint {
  GetName : string;
  GetType : Z
}.

(** [Base::HasType]: all the bits of [t] are in the joint's mask. *)
Definition HasType (j : Joint) (t : Z) : bool :=
  Z.land (GetType j) t =? t.

(** gazebo::common::PID, reduced to its three gains. *)
Record PID : Type := mkPID {
  PGain : float;
  IGain : float;
  DGain : float
}.

(** The [PID(p, i, d)] constructor. *)
Definition PID_ctor (p i d : float) : PID := mkPID p i d.

(** The state of [gazebo::physics::JointController] the plugin writes:
    the PID tables and the target tables, all keyed by scoped joint name. *)
Record JointController : Type := mkJC {
  posPids : gmap string PID;
  velPids : gmap string PID;
  positions : gmap string float;
  velocities : gmap string float
}.

Definition SetPositionPID (jc : JointController) (n : string) (pid : PID)
  : JointController :=
  mkJC (<[n := pid]> (posPids jc)) (velPids jc) (positions jc) (velocities jc).

Definition SetVelocityPID (jc : JointController) (n : string) (pid : PID)
  : JointController :=
  mkJC (posPids jc) (<[n := pid]> (velPids jc)) (positions jc) (velocities jc).

Definition SetPositionTarget (jc : JointController) (n : string) (x : float)
  : JointController :=
  mkJC (posPids jc) (velPids jc) (<[n := x]> (positions jc)) (velocities jc).

Definition SetVelocityTarget (jc : JointController) (n : string) (x : float)
  : JointController :=
  mkJC (posPids jc) (velPids jc) (positions jc) (<[n := x]> (velocities jc)).

(** The model handed to [Load]: its name, its joints in the order
    [GetJoints] returns them, and its joint controller. *)
Record Model : Type := mkModel {
  model_name : string;
  GetJoints : list Joint;
  GetJointController : JointController
}.

(** [Joint::GetScopedName()]: the joint's name prefixed by its model's. *)
Definition GetScopedName (m : Model) (j : Joint) : string :=
  model_name m +:+ "::" +:+ GetName j.

(** ** Plugin state *)

(** The ten role joints bound by [Load]. *)
Record Roles : Type := mkRoles {
  fl_str_joint : Joint;
  fr_str_joint : Joint;
  fl_axle_joint : Joint;
  fr_axle_joint : Joint;
  bl_axle_joint : Joint;
  br_axle_joint : Joint;
  fl_shock_joint : Joint;
  fr_shock_joint : Joint;
  bl_shock_joint : Joint;
  br_shock_joint : Joint
}.

(** The PID objects kept per role. *)
Record RolePids : Type := mkRolePids {
  fl_pid : PID;
  fr_pid : PID;
  bl_pid : PID;
  br_pid : PID;
  fl_shock_pid : PID;
  fr_shock_pid : PID;
  bl_shock_pid : PID;
  br_shock_pid : PID
}.

(** What [Load] registers with the transport layer. *)
Inductive Endpoint : Type :=
| Publisher (topic : string) (depth : Z)
| Subscription (topic : string) (depth : Z).

Record CarGazeboPlugin : Type := mkPlugin {
  robot_namespace_ : string;
  last_sim_time_ : Time;
  last_update_time_ : Time;
  update_period_ms_ : float;
  model_ : Model;
  joints_ : gmap string (Joint * PID);
  joint_targets_ : gmap string float;
  jc : JointController;
  roles : Roles;
  role_pids : RolePids;
  endpoints : list Endpoint
}.

(** ** Update *)

(** One invocation of the world-update callback reads the simulation clock,
    the joint positions of the physics state and the node's clock. *)
Record Tick : Type := mkTick {
  SimTime : Time;
  Position : Joint -> float;
  now : Z
}.

Record JointState : Type := mkJointState {
  stamp : Z;
  name : list string;
  position : list float
}.

Inductive Output : Type :=
| OdometryPublished
| JointStatePublished (msg : JointState).

(** Modelled from the spec: [publish_state()] is defined outside this file;
    the state publisher is a pure read that emits the odometry counters and
    mutates nothing, so a call contributes one output and no state change. *)
Definition publish_state (st : CarGazeboPlugin) : list Output :=
  [OdometryPublished].

(** The test [update_dt * 1000 >= update_period_ms_]. *)
Definition period_elapsed (period_ms : float) (update_dt : float) : bool :=
  PrimFloat.leb period_ms (PrimFloat.mul update_dt 1000%float).

(** The body of the [for (auto& j : joints_)] loop, run over the map's
    iteration sequence: one [push_back] on each array per entry. *)
Fixpoint fill_message (entries : list (string * (Joint * PID)))
    (pos : Joint -> float) (msg : JointState) : JointState :=
  match entries with
  | [] => msg
  | (n, (joint, _)) :: rest =>
      fill_message rest pos
        (mkJointState (stamp msg) (name msg ++ [n])
                      (position msg ++ [pos joint]))
  end.

Definition set_times (st : CarGazeboPlugin) (sim upd : Time) : CarGazeboPlugin :=
  mkPlugin (robot_namespace_ st) sim upd (update_period_ms_ st) (model_ st)
           (joints_ st) (joint_targets_ st) (jc st) (roles st) (role_pids st)
           (endpoints st).

Definition Update (st : CarGazeboPlugin) (tk : Tick)
  : CarGazeboPlugin * list Output :=
  let cur_time := SimTime tk in
  if last_sim_time_ st =? 0 then
    (set_times st cur_time cur_time, [])
  else
    let dt := Double (cur_time - last_sim_time_ st) in
    (* Publish joint states *)
    let update_dt := Double (cur_time - last_update_time_ st) in
    if period_elapsed (update_period_ms_ st) update_dt then
      let msg := fill_message (map_to_list (joints_ st)) (Position tk)
                              (mkJointState (now tk) [] []) in
      (set_times st cur_time cur_time,
       publish_state st ++ [JointStatePublished msg])
    else
      (set_times st cur_time (last_update_time_ st), []).

(** ** Load *)

(** The fatal load-time error of the design document. *)
Inductive Error : Type :=
| ConfigurationError (joint_name : string).

Inductive result (A : Type) : Type :=
| Ok (a : A)
| Err (e : Error).
Arguments Ok {A} a.
Arguments Err {A} e.

Definition bind {A B : Type} (c : result A) (k : A -> result B) : result B :=
  match c with
  | Ok a => k a
  | Err e => Err e
  end.

Notation "'let*' x ':=' c 'in' k" := (bind c (fun x => k))
  (at level 10, x name, c at level 100, k at level 200, only parsing).

(** What the constructor initialises. *)
Record Constructed : Type := mkConstructed {
  ctor_robot_namespace : string;
  ctor_last_sim_time : Time;
  ctor_last_update_time : Time;
  ctor_update_period_ms : float
}.

Definition CarGazeboPlugin_ctor : Constructed :=
  mkConstructed "" 0 0 8%float.

(** [gazebo::common::PID{}] followed by the three gain setters. *)
Definition PID_default : PID := mkPID 0%float 0%float 0%float.
Definition SetPGain (pid : PID) (x : float) : PID := mkPID x (IGain pid) (DGain pid).
Definition SetIGain (pid : PID) (x : float) : PID := mkPID (PGain pid) x (DGain pid).
Definition SetDGain (pid : PID) (x : float) : PID := mkPID (PGain pid) (IGain pid) x.

Definition generic_pid : PID :=
  SetDGain (SetIGain (SetPGain PID_default 200%float) 0%float) 0%float.

(** The "Find joints" loop over [allJoints], threading [joints_] and
    [joint_targets_]. *)
Fixpoint find_joints (allJoints : list Joint)
    (acc : gmap string (Joint * PID) * gmap string float)
  : gmap string (Joint * PID) * gmap string float :=
  match allJoints with
  | [] => acc
  | j :: rest =>
      if GetType j =? FIXED_JOINT then find_joints rest acc
      else
        let pid := generic_pid in
        let name := GetName j in
        find_joints rest (<[name := (j, pid)]> (fst acc),
                          <[name := 0%float]> (snd acc))
  end.

(** Modelled from the spec: [get_joint] is defined outside this file; the
    design document makes it the registry's lookup by name, whose failure
    for a role joint is the fatal ConfigurationError that aborts the load. *)
Definition get_joint (joints : gmap string (Joint * PID)) (joint_name : string)
  : result Joint :=
  match joints !! joint_name with
  | Some (j, _) => Ok j
  | None => Err (ConfigurationError joint_name)
  end.

(** The names [Load] binds, in binding order. *)
Definition role_joint_names : list string :=
  [ "front_left_wheel_steer_joint"; "front_left_shock_joint";
    "front_right_shock_joint"; "back_left_shock_joint";
    "back_right_shock_joint"; "front_right_wheel_steer_joint";
    "front_left_wheel_joint"; "front_right_wheel_joint";
    "back_left_wheel_joint"; "back_right_wheel_joint" ].

Section Load.

(** [shock_p] and [shock_d] are constants of the plugin's header. *)
Variables shock_p shock_d : float.

Definition Load (model : Model) (sdf : option string) : result CarGazeboPlugin :=
  let c := CarGazeboPlugin_ctor in
  let robot_namespace :=
    match sdf with
    | Some ns => ns +:+ "/"
    | None => ctor_robot_namespace c
    end in
  let joint_state_pub := Publisher "/joint_states" 10 in
  let '(joints, joint_targets) := find_joints (GetJoints model) (∅, ∅) in
  let scoped := GetScopedName model in
  let jc := GetJointController model in
  (* front left str *)
  let fl_pid := PID_ctor 1%float 0%float 0%float in
  let* fl_str_joint := get_joint joints "front_left_wheel_steer_joint" in
  let jc := SetPositionPID jc (scoped fl_str_joint) fl_pid in
  (* front left shock *)
  let fl_shock_pid := PID_ctor shock_p 0%float shock_d in
  let* fl_shock_joint := get_joint joints "front_left_shock_joint" in
  let jc := SetPositionPID jc (scoped fl_shock_joint) fl_shock_pid in
  let jc := SetPositionTarget jc (scoped fl_shock_joint) 0%float in
  (* front right shock *)
  let fr_shock_pid := PID_ctor shock_p 0%float shock_d in
  let* fr_shock_joint := get_joint joints "front_right_shock_joint" in
  let jc := SetPositionPID jc (scoped fr_shock_joint) fr_shock_pid in
  let jc := SetPositionTarget jc (scoped fr_shock_joint) 0%float in
  (* back left shock *)
  let bl_shock_pid := PID_ctor shock_p 0%float shock_d in
  let* bl_shock_joint := get_joint joints "back_left_shock_joint" in
  let jc := SetPositionPID jc (scoped bl_shock_joint) bl_shock_pid in
  let jc := SetPositionTarget jc (scoped bl_shock_joint) 0%float in
  (* back right shock *)
  let br_shock_pid := PID_ctor shock_p 0%float shock_d in
  let* br_shock_joint := get_joint joints "back_right_shock_joint" in
  let jc := SetPositionPID jc (scoped br_shock_joint) br_shock_pid in
  let jc := SetPositionTarget jc (scoped br_shock_joint) 0%float in
  (* front right str *)
  let fr_pid := PID_ctor 1%float 0%float 0%float in
  let* fr_str_joint := get_joint joints "front_right_wheel_steer_joint" in
  let jc := SetPositionPID jc (scoped fr_str_joint) fr_pid in
  let* fl_axle_joint := get_joint joints "front_left_wheel_joint" in
  let* fr_axle_joint := get_joint joints "front_right_wheel_joint" in
  (* back left speed *)
  let bl_pid := PID_ctor 0.1%float 0.01%float 0.0%float in
  let* bl_axle_joint := get_joint joints "back_left_wheel_joint" in
  let jc := SetVelocityPID jc (scoped bl_axle_joint) bl_pid in
  let br_pid := PID_ctor 0.1%float 0.01%float 0.0%float in
  let* br_axle_joint := get_joint joints "back_right_wheel_joint" in
  let jc := SetVelocityPID jc (scoped br_axle_joint) br_pid in
  (* publish *)
  let odo_fl_pub := Publisher ("/" +:+ model_name model +:+ "/odo_fl") 10 in
  let odo_fr_pub := Publisher ("/" +:+ model_name model +:+ "/odo_fr") 10 in
  let ackermann_pub :=
    Publisher ("/" +:+ model_name model +:+ "/cmd_ackermann") 10 in
  (* subscribe *)
  let joy_sub := Subscription "/joy" 2 in
  let ackermann_sub :=
    Subscription ("/" +:+ model_name model +:+ "/cmd_ackermann") 2 in
  Ok (mkPlugin robot_namespace
        (ctor_last_sim_time c) (ctor_last_update_time c)
        (ctor_update_period_ms c)
        model joints joint_targets jc
        (mkRoles fl_str_joint fr_str_joint fl_axle_joint fr_axle_joint
                 bl_axle_joint br_axle_joint fl_shock_joint fr_shock_joint
                 bl_shock_joint br_shock_joint)
        (mkRolePids fl_pid fr_pid bl_pid br_pid fl_shock_pid fr_shock_pid
                    bl_shock_pid br_shock_pid)
        [joint_state_pub; odo_fl_pub; odo_fr_pub; ackermann_pub;
         joy_sub; ackermann_sub]).

End Load.

(** ** Command handling *)

Record DriveCommand : Type := mkDriveCommand {
  linear_speed : float;
  steering_angle : float;
  timestamp : Z
}.

(** sensor_msgs/Joy. *)
Record Joy : Type := mkJoy {
  axes : list float;
  buttons : list Z
}.

(** A command is malformed when one of its two numbers is not a finite
    double (NaN or an infinity). *)
Definition well_formed (cmd : DriveCommand) : bool :=
  PrimFloat.is_finite (linear_speed cmd) && PrimFloat.is_finite (steering_angle cmd).

Definition set_jc (st : CarGazeboPlugin) (jc' : JointController) : CarGazeboPlugin :=
  mkPlugin (robot_namespace_ st) (last_sim_time_ st) (last_update_time_ st)
           (update_period_ms_ st) (model_ st) (joints_ st) (joint_targets_ st)
           jc' (roles st) (role_pids st) (endpoints st).

(** Modelled from the spec: the command callbacks are defined outside this
    file.  The design document's translation sets both front steer position
    targets to the steering angle and both rear axle velocity targets to the
    linear speed, and skips the update for a malformed command. *)
Definition translate (st : CarGazeboPlugin) (cmd : DriveCommand) : CarGazeboPlugin :=
  if well_formed cmd then
    let scoped := GetScopedName (model_ st) in
    let r := roles st in
    let jc1 := SetPositionTarget (jc st) (scoped (fl_str_joint r)) (steering_angle cmd) in
    let jc2 := SetPositionTarget jc1 (scoped (fr_str_joint r)) (steering_angle cmd) in
    let jc3 := SetVelocityTarget jc2 (scoped (bl_axle_joint r)) (linear_speed cmd) in
    let jc4 := SetVelocityTarget jc3 (scoped (br_axle_joint r)) (linear_speed cmd) in
    set_jc st jc4
  else st.

(** Modelled from the spec: an Ackermann message is taken directly as a
    drive command. *)
Definition ackermann_callback (st : CarGazeboPlugin) (msg : DriveCommand)
  : CarGazeboPlugin :=
  translate st msg.

(** Modelled from the spec: joystick axes are mapped to a drive command by a
    fixed scale, which the design document leaves open; it is the parameter
    [scale]. *)
Definition joy_callback (scale : Joy -> DriveCommand) (st : CarGazeboPlugin)
    (msg : Joy) : CarGazeboPlugin :=
  translate st (scale msg).

(** The per-role targets held by the joint controller. *)
Definition steer_target (st : CarGazeboPlugin) (j : Roles -> Joint) : option float :=
  positions (jc st) !! GetScopedName (model_ st) (j (roles st)).

Definition axle_target (st : CarGazeboPlugin) (j : Roles -> Joint) : option float :=
  velocities (jc st) !! GetScopedName (model_ st) (j (roles st)).

Definition shock_target (st : CarGazeboPlugin) (j : Roles -> Joint) : option float :=
  positions (jc st) !! GetScopedName (model_ st) (j (roles st)).

(** ** Runs of the loaded plugin *)

(** The callbacks the host dispatches, one at a time. *)
Inductive Event : Type :=
| WorldUpdate (tk : Tick)
| JoyMessage (msg : Joy)
| AckermannMessage (msg : DriveCommand).

Definition dispatch (scale : Joy -> DriveCommand) (st : CarGazeboPlugin)
    (ev : Event) : CarGazeboPlugin * list Output :=
  match ev with
  | WorldUpdate tk => Update st tk
  | JoyMessage msg => (joy_callback scale st msg, [])
  | AckermannMessage msg => (ackermann_callback st msg, [])
  end.

Fixpoint run (scale : Joy -> DriveCommand) (st : CarGazeboPlugin)
    (evs : list Event) : CarGazeboPlugin * list Output :=
  match evs with
  | [] => (st, [])
  | ev :: rest =>
      let '(st1, out1) := dispatch scale st ev in
      let '(st2, out2) := run scale st1 rest in
      (st2, out1 ++ out2)
  end.

(** The life of the plugin: [Load], then the callbacks; a failed load
    processes no event. *)
Definition session (shock_p shock_d : float) (scale : Joy -> DriveCommand)
    (model : Model) (sdf : option string) (evs : list Event)
  : result (CarGazeboPlugin * list Output) :=
  let* st := Load shock_p shock_d model sdf in
  Ok (run scale st evs).

(** Runs of ticks only. *)
Definition exec (st : CarGazeboPlugin) (ticks : list Tick) : CarGazeboPlugin :=
  fold_left (fun s tk => fst (Update s tk)) ticks st.

Definition publishes (out : list Output) : bool :=
  existsb (fun o => match o with JointStatePublished _ => true | _ => false end) out.

(** The simulation times of the ticks of a run on which a joint state was
    published. *)
Fixpoint publish_times (st : CarGazeboPlugin) (ticks : list Tick) : list Time :=
  match ticks with
  | [] => []
  | tk :: rest =>
      let '(st', out) := Update st tk in
      if publishes out then SimTime tk :: publish_times st' rest
      else publish_times st' rest
  end.

(** All outputs of a run of ticks. *)
Fixpoint outputs (st : CarGazeboPlugin) (ticks : list Tick) : list Output :=
  match ticks with
  | [] => []
  | tk :: rest =>
      let '(st', out) := Update st tk in
      out ++ outputs st' rest
  end.

(** ** Notions used by the statements *)

(** Strictly increasing simulation times, starting above [t]. *)
Fixpoint increasing (t : Time) (ticks : list Tick) : Prop :=
  match ticks with
  | [] => True
  | tk :: rest => t < SimTime tk /\ increasing (SimTime tk) rest
  end.

(** The registry of a model. *)
Definition registry (m : Model) : gmap string (Joint * PID) :=
  fst (find_joints (GetJoints m) (∅, ∅)).

(** A joint name scoped by the model's name. *)
Definition scoped_name (m : Model) (n : string) : string :=
  model_name m +:+ "::" +:+ n.

(** The controller tables [Load] leaves, by scoped role-joint name. *)
Definition loaded_posPids (shock_p shock_d : float) (m : Model) : gmap string PID :=
  let shock := PID_ctor shock_p 0%float shock_d in
  let str := PID_ctor 1%float 0%float 0%float in
  <[scoped_name m "front_right_wheel_steer_joint" := str]>
  (<[scoped_name m "back_right_shock_joint" := shock]>
  (<[scoped_name m "back_left_shock_joint" := shock]>
  (<[scoped_name m "front_right_shock_joint" := shock]>
  (<[scoped_name m "front_left_shock_joint" := shock]>
  (<[scoped_name m "front_left_wheel_steer_joint" := str]>
     (posPids (GetJointController m))))))).

Definition loaded_velPids (m : Model) : gmap string PID :=
  let axle := PID_ctor 0.1%float 0.01%float 0.0%float in
  <[scoped_name m "back_right_wheel_joint" := axle]>
  (<[scoped_name m "back_left_wheel_joint" := axle]>
     (velPids (GetJointController m))).

Definition loaded_positions (m : Model) : gmap string float :=
  <[scoped_name m "back_right_shock_joint" := 0%float]>
  (<[scoped_name m "back_left_shock_joint" := 0%float]>
  (<[scoped_name m "front_right_shock_joint" := 0%float]>
  (<[scoped_name m "front_left_shock_joint" := 0%float]>
     (positions (GetJointController m))))).

(** The role joints carry the names they were looked up by. *)
Definition roles_named (r : Roles) : Prop :=
  GetName (fl_str_joint r) = "front_left_wheel_steer_joint" /\
  GetName (fr_str_joint r) = "front_right_wheel_steer_joint" /\
  GetName (fl_axle_joint r) = "front_left_wheel_joint" /\
  GetName (fr_axle_joint r) = "front_right_wheel_joint" /\
  GetName (bl_axle_joint r) = "back_left_wheel_joint" /\
  GetName (br_axle_joint r) = "back_right_wheel_joint" /\
  GetName (fl_shock_joint r) = "front_left_shock_joint" /\
  GetName (fr_shock_joint r) = "front_right_shock_joint" /\
  GetName (bl_shock_joint r) = "back_left_shock_joint" /\
  GetName (br_shock_joint r) = "back_right_shock_joint".

(** ** A concrete car *)

(** A hinge joint's entity type (JOINT | HINGE_JOINT), a slider's and a
    fixed joint's (JOINT | FIXED_JOINT). *)
Definition hinge : Z := 0x240.
Definition slider : Z := 0x440.
Definition weld : Z := 0x4040.

(** The joints of the demo car; [chassis_to_base_joint] has the bare type
    [FIXED_JOINT], the one value the discovery loop skips. *)
Definition demo_joints : list Joint :=
  [ mkJoint "front_left_wheel_steer_joint" hinge;
    mkJoint "front_left_shock_joint" slider;
    mkJoint "front_right_shock_joint" slider;
    mkJoint "back_left_shock_joint" slider;
    mkJoint "back_right_shock_joint" slider;
    mkJoint "front_right_wheel_steer_joint" hinge;
    mkJoint "front_left_wheel_joint" hinge;
    mkJoint "chassis_to_base_joint" FIXED_JOINT;
    mkJoint "front_right_wheel_joint" hinge;
    mkJoint "back_left_wheel_joint" hinge;
    mkJoint "back_right_wheel_joint" hinge;
    mkJoint "lidar_mount_joint" hinge ].

Definition demo_model : Model :=
  mkModel "car" demo_joints (mkJC ∅ ∅ ∅ ∅).

(** The same car without its back left shock. *)
Definition broken_model : Model :=
  mkModel "car"
    (filter (fun j => negb (String.eqb (GetName j) "back_left_shock_joint")) demo_joints)
    (mkJC ∅ ∅ ∅ ∅).

(** The plugin as constructed, before [Load] has bound anything. *)
Definition constructed_only (m : Model) : CarGazeboPlugin :=
  let c := CarGazeboPlugin_ctor in
  let j := mkJoint "" 0 in
  let p := PID_default in
  mkPlugin (ctor_robot_namespace c) (ctor_last_sim_time c)
           (ctor_last_update_time c) (ctor_update_period_ms c)
           m ∅ ∅ (GetJointController m)
           (mkRoles j j j j j j j j j j) (mkRolePids p p p p p p p p) [].

Definition demo_plugin : CarGazeboPlugin :=
  match Load 30000%float 1000%float demo_model None with
  | Ok st => st
  | Err _ => constructed_only demo_model
  end.

Definition tick_at (t : Time) : Tick :=
  mkTick t (fun j => Z2F (Z.of_nat (String.length (GetName j)))) t.

(** The demo plugin after a calibration tick at 1 ms. *)
Definition demo_running : CarGazeboPlugin :=
  fst (Update demo_plugin (tick_at 1000000)).

Definition demo_ticks : list Tick :=
  map tick_at [3000000; 9000000; 12000000; 16999999; 17000000; 30000000].

Definition demo_msg : JointState :=
  fill_message (map_to_list (joints_ demo_running)) (Position (tick_at 9000000))
               (mkJointState 9000000 [] []).

(** The demo car with a fixed joint as Gazebo types it, in place of the
    joint whose type is the bare [FIXED_JOINT]. *)
Definition welded_joints : list Joint :=
  filter (fun j => negb (GetType j =? FIXED_JOINT)) demo_joints
  ++ [mkJoint "chassis_weld" weld].

Definition welded_model : Model :=
  mkModel "car" welded_joints (mkJC ∅ ∅ ∅ ∅).

Definition welded_plugin : CarGazeboPlugin :=
  match Load 30000%float 1000%float welded_model None with
  | Ok st => st
  | Err _ => constructed_only welded_model
  end.

Definition welded_msg : JointState :=
  fill_message (map_to_list (joints_ welded_plugin)) (Position (tick_at 9000000))
               (mkJointState 9000000 [] []).

Definition demo_cmd : DriveCommand := mkDriveCommand 2.0%float 0.3%float 0.
Definition nan_cmd : DriveCommand := mkDriveCommand PrimFloat.nan 0.3%float 0.

(** ** Checking the period test on every short interval

    The test is evaluated on each number of nanoseconds below 2^24 (about
    16.7 ms), held as a machine integer. *)

(** The test with the default period on a time below one second. *)
Definition elapsed_8ms (ns : int) : bool :=
  period_elapsed 8%float
    (PrimFloat.add 0%float
       (PrimFloat.mul (PrimFloat.of_uint63 ns) 1e-9%float)).

(** [2^(k-1); ...; 2; 1] as machine integers. *)
Fixpoint strides (k : nat) : list int :=
  match k with
  | O => []
  | S k' => Uint63.of_Z (2 ^ Z.of_nat k') :: strides k'
  end.

(** [P] on every [base + j] with [j] a sum of distinct strides. *)
Fixpoint all_block (ss : list int) (base : int) (P : int -> bool) : bool :=
  match ss with
  | [] => P base
  | s :: rest => all_block rest base P && all_block rest (Uint63.add base s) P
  end.

Definition gate_agrees (ns : int) : bool :=
  Bool.eqb (elapsed_8ms ns) (Uint63.leb 8000000%uint63 ns).

(** Simulation times that never go back, starting at [t]. *)
Fixpoint nondecreasing (t : Time) (ticks : list Tick) : Prop :=
  match ticks with
  | [] => True
  | tk :: rest => t <= SimTime tk /\ nondecreasing (SimTime tk) rest
  end.

Definition set_namespace (st : CarGazeboPlugin) (ns : string) : CarGazeboPlugin :=
  mkPlugin ns (last_sim_time_ st) (last_update_time_ st) (update_period_ms_ st)
           (model_ st) (joints_ st) (joint_targets_ st) (jc st) (roles st)
           (role_pids st) (endpoints st).

(** * Properties *)

(** ** The tick scheduler *)

Lemma Update_calibrates (st : CarGazeboPlugin) (tk : Tick) :
  last_sim_time_ st = 0 ->
  Update st tk = (set_times st (SimTime tk) (SimTime tk), []).
Proof.
  intros H. unfold Update. rewrite H. reflexivity.
Qed.

Lemma Update_running (st : CarGazeboPlugin) (tk : Tick) :
  last_sim_time_ st <> 0 ->
  Update st tk =
    if period_elapsed (update_period_ms_ st)
         (Double (SimTime tk - last_update_time_ st))
    then (set_times st (SimTime tk) (SimTime tk),
          publish_state st ++
          [JointStatePublished
             (fill_message (map_to_list (joints_ st)) (Position tk)
                           (mkJointState (now tk) [] []))])
    else (set_times st (SimTime tk) (last_update_time_ st), []).
Proof.
  intros H. unfold Update.
  destruct (Z.eqb_spec (last_sim_time_ st) 0) as [E | _]; [contradiction | reflexivity].
Qed.

Lemma Update_last_sim_time (st : CarGazeboPlugin) (tk : Tick) :
  last_sim_time_ (fst (Update st tk)) = SimTime tk.
Proof.
  unfold Update.
  destruct (last_sim_time_ st =? 0); [reflexivity |].
  destruct (period_elapsed _ _); reflexivity.
Qed.

Lemma Update_period (st : CarGazeboPlugin) (tk : Tick) :
  update_period_ms_ (fst (Update st tk)) = update_period_ms_ st.
Proof.
  unfold Update.
  destruct (last_sim_time_ st =? 0); [reflexivity |].
  destruct (period_elapsed _ _); reflexivity.
Qed.

(** [Update] writes the two timestamps and nothing else. *)
Lemma Update_frame (st : CarGazeboPlugin) (tk : Tick) :
  let st' := fst (Update st tk) in
  robot_namespace_ st' = robot_namespace_ st /\
  update_period_ms_ st' = update_period_ms_ st /\
  model_ st' = model_ st /\
  joints_ st' = joints_ st /\
  joint_targets_ st' = joint_targets_ st /\
  jc st' = jc st /\
  roles st' = roles st /\
  role_pids st' = role_pids st /\
  endpoints st' = endpoints st.
Proof.
  unfold Update.
  destruct (last_sim_time_ st =? 0); [cbn; tauto |].
  destruct (period_elapsed _ _); cbn; tauto.
Qed.

(** C2: an invocation of Update that finds last_sim_time == 0 publishes
    nothing (it produces no output at all) and leaves both last_sim_time
    and last_update_time equal to the tick's simulation time. *)
Theorem first_tick_calibrates (st : CarGazeboPlugin) (tk : Tick) :
  last_sim_time_ st = 0 ->
  snd (Update st tk) = [] /\
  publishes (snd (Update st tk)) = false /\
  last_sim_time_ (fst (Update st tk)) = SimTime tk /\
  last_update_time_ (fst (Update st tk)) = SimTime tk.
Proof.
  intros H. rewrite (Update_calibrates st tk H). cbn. auto.
Qed.

Lemma increasing_prefix (pre post : list Tick) : forall t,
  increasing t (pre ++ post) -> increasing t pre.
Proof.
  induction pre as [| a pre IH]; intros t H; [exact I |].
  destruct H as [Hlt H]. split; [exact Hlt | exact (IH _ H)].
Qed.

Lemma exec_cons (st : CarGazeboPlugin) (tk : Tick) (rest : list Tick) :
  exec st (tk :: rest) = exec (fst (Update st tk)) rest.
Proof. reflexivity. Qed.

Lemma exec_period (ticks : list Tick) : forall st,
  update_period_ms_ (exec st ticks) = update_period_ms_ st.
Proof.
  induction ticks as [| tk rest IH]; intros st; [reflexivity |].
  rewrite exec_cons, IH. apply Update_period.
Qed.

(** Along increasing positive times the plugin stays out of the
    uninitialised state, and the rest of the run is still increasing. *)
Lemma exec_increasing (pre : list Tick) : forall st post,
  0 < last_sim_time_ st ->
  increasing (last_sim_time_ st) (pre ++ post) ->
  0 < last_sim_time_ (exec st pre) /\
  increasing (last_sim_time_ (exec st pre)) post.
Proof.
  induction pre as [| tk rest IH]; intros st post Hpos Hinc; [auto |].
  cbn [app increasing] in Hinc. destruct Hinc as [Hlt Hinc].
  rewrite exec_cons. apply IH.
  - rewrite Update_last_sim_time. lia.
  - rewrite Update_last_sim_time. exact Hinc.
Qed.

(** What one tick does in the running state, in terms of the gate. *)
Lemma Update_gate (st : CarGazeboPlugin) (tk : Tick) :
  last_sim_time_ st <> 0 ->
  let g := period_elapsed (update_period_ms_ st)
             (Double (SimTime tk - last_update_time_ st)) in
  publishes (snd (Update st tk)) = g /\
  last_update_time_ (fst (Update st tk)) =
    (if g then SimTime tk else last_update_time_ st).
Proof.
  intros H g. rewrite (Update_running st tk H). fold g.
  destruct g; cbn; auto.
Qed.

Lemma last_cons_default {A : Type} (x d : A) (l : list A) :
  List.last (x :: l) d = List.last l x.
Proof.
  revert x d. induction l as [| y l IH]; intros x d; [reflexivity |].
  change (List.last (y :: l) d = List.last (y :: l) x).
  rewrite !IH. reflexivity.
Qed.

Lemma publish_times_cons (st : CarGazeboPlugin) (tk : Tick) (rest : list Tick) :
  publish_times st (tk :: rest) =
    if publishes (snd (Update st tk))
    then SimTime tk :: publish_times (fst (Update st tk)) rest
    else publish_times (fst (Update st tk)) rest.
Proof. cbn [publish_times]. destruct (Update st tk); reflexivity. Qed.

(** [last_update_time_] is the time of the latest publish of the run. *)
Lemma last_update_is_last_publish (ticks : list Tick) : forall st,
  0 < last_sim_time_ st ->
  increasing (last_sim_time_ st) ticks ->
  last_update_time_ (exec st ticks) =
    List.last (publish_times st ticks) (last_update_time_ st).
Proof.
  induction ticks as [| tk rest IH]; intros st Hpos Hinc; [reflexivity |].
  destruct Hinc as [Hlt Hinc].
  assert (Hrun : last_sim_time_ st <> 0) by lia.
  destruct (Update_gate st tk Hrun) as [Hp Hu].
  rewrite exec_cons, publish_times_cons, IH;
    rewrite ?Update_last_sim_time; [| lia | exact Hinc].
  rewrite Hp, Hu.
  destruct (period_elapsed _ _); [| reflexivity].
  symmetry. apply last_cons_default.
Qed.

(** The first publish of a run passes the gate against the state's
    [last_update_time_]. *)
Lemma first_publish_gate (ticks : list Tick) : forall st t ts,
  0 < last_sim_time_ st ->
  increasing (last_sim_time_ st) ticks ->
  publish_times st ticks = t :: ts ->
  period_elapsed (update_period_ms_ st) (Double (t - last_update_time_ st)) = true.
Proof.
  induction ticks as [| tk rest IH]; intros st t ts Hpos Hinc Hpt; [discriminate |].
  destruct Hinc as [Hlt Hinc].
  assert (Hrun : last_sim_time_ st <> 0) by lia.
  destruct (Update_gate st tk Hrun) as [Hp Hu].
  rewrite publish_times_cons, Hp in Hpt.
  destruct (period_elapsed _ _) eqn:Hg.
  - injection Hpt as <- _. exact Hg.
  - rewrite <- (Update_period st tk), <- Hu.
    apply (IH _ _ ts); rewrite ?Update_last_sim_time; [lia | exact Hinc | exact Hpt].
Qed.

(** Two successive publishes of a run are separated by a time that passes
    the gate. *)
Lemma successive_publishes_gate (ticks : list Tick) : forall st (i : nat) t1 t2,
  0 < last_sim_time_ st ->
  increasing (last_sim_time_ st) ticks ->
  publish_times st ticks !! i = Some t1 ->
  publish_times st ticks !! S i = Some t2 ->
  period_elapsed (update_period_ms_ st) (Double (t2 - t1)) = true.
Proof.
  induction ticks as [| tk rest IH]; intros st i t1 t2 Hpos Hinc H1 H2; [discriminate |].
  destruct Hinc as [Hlt Hinc].
  assert (Hrun : last_sim_time_ st <> 0) by lia.
  destruct (Update_gate st tk Hrun) as [Hp Hu].
  assert (Hpos' : 0 < last_sim_time_ (fst (Update st tk)))
    by (rewrite Update_last_sim_time; lia).
  assert (Hinc' : increasing (last_sim_time_ (fst (Update st tk))) rest)
    by (rewrite Update_last_sim_time; exact Hinc).
  rewrite publish_times_cons, Hp in H1, H2.
  rewrite <- (Update_period st tk).
  destruct (period_elapsed _ _) eqn:Hg.
  - destruct i as [| i'].
    + injection H1 as <-. cbn in H2.
      destruct (publish_times (fst (Update st tk)) rest) as [| t ts] eqn:Hpt;
        [discriminate |].
      injection H2 as <-.
      rewrite <- Hu. apply (first_publish_gate rest _ _ ts Hpos' Hinc' Hpt).
    + apply (IH _ i' t1 t2 Hpos' Hinc' H1 H2).
  - apply (IH _ i t1 t2 Hpos' Hinc' H1 H2).
Qed.

(** C1: in the running state (after a calibration tick at a positive time),
    along ticks with strictly increasing simulation time, a joint state is
    published on a tick exactly when the time since the last publish passes
    the test update_dt * 1000 >= update_period_ms; last_update_time is the
    time of the last publish and is reset to the current time on each
    publishing tick; and any two successive publishes are separated by a
    time that passes the same test. *)
Theorem publish_gated_by_period (st : CarGazeboPlugin) (ticks : list Tick) :
  0 < last_sim_time_ st ->
  increasing (last_sim_time_ st) ticks ->
  (forall pre tk post, ticks = pre ++ tk :: post ->
     let s := exec st pre in
     let g := period_elapsed (update_period_ms_ st)
                (Double (SimTime tk - last_update_time_ s)) in
     last_update_time_ s = List.last (publish_times st pre) (last_update_time_ st) /\
     publishes (snd (Update s tk)) = g /\
     last_update_time_ (fst (Update s tk)) =
       (if g then SimTime tk else last_update_time_ s)) /\
  (forall (i : nat) t1 t2,
     publish_times st ticks !! i = Some t1 ->
     publish_times st ticks !! S i = Some t2 ->
     period_elapsed (update_period_ms_ st) (Double (t2 - t1)) = true).
Proof.
  intros Hpos Hinc. split.
  - intros pre tk post -> s g.
    destruct (exec_increasing pre st (tk :: post) Hpos Hinc) as [Hpos' _].
    split.
    + apply last_update_is_last_publish; [exact Hpos |].
      exact (increasing_prefix pre (tk :: post) _ Hinc).
    + assert (Hrun : last_sim_time_ s <> 0) by (subst s; lia).
      subst g. rewrite <- (exec_period pre st). fold s.
      apply (Update_gate s tk Hrun).
  - intros i t1 t2. apply successive_publishes_gate; assumption.
Qed.

(** ** Joint discovery *)

Lemma find_joints_lookup (allJoints : list Joint) : forall acc n j p,
  fst (find_joints allJoints acc) !! n = Some (j, p) ->
  fst acc !! n = Some (j, p) \/
  (In j allJoints /\ GetName j = n /\ GetType j <> FIXED_JOINT /\ p = generic_pid).
Proof.
  induction allJoints as [| a rest IH]; intros acc n j p H; [left; exact H |].
  cbn [find_joints] in H.
  destruct (Z.eqb_spec (GetType a) FIXED_JOINT) as [E | NE].
  - destruct (IH _ _ _ _ H) as [H' | (Hin & H')]; [left; exact H' |].
    right. split; [right; exact Hin | exact H'].
  - destruct (IH _ _ _ _ H) as [H' | (Hin & H')].
    + cbn [fst] in H'.
      destruct (decide (GetName a = n)) as [<- | Hn].
      * rewrite lookup_insert_eq in H'. injection H' as <- <-.
        right. repeat split; [left; reflexivity | exact NE].
      * rewrite lookup_insert_ne in H' by exact Hn. left; exact H'.
    + right. split; [right; exact Hin | exact H'].
Qed.

Lemma find_joints_registers (allJoints : list Joint) : forall acc n,
  is_Some (fst acc !! n) \/
    (exists j, In j allJoints /\ GetType j <> FIXED_JOINT /\ GetName j = n) ->
  is_Some (fst (find_joints allJoints acc) !! n).
Proof.
  induction allJoints as [| a rest IH]; intros acc n H.
  - destruct H as [H | (j & [] & _)]. exact H.
  - cbn [find_joints].
    destruct (Z.eqb_spec (GetType a) FIXED_JOINT) as [E | NE]; apply IH.
    + destruct H as [H | (j & [-> | Hin] & Hty & Hn)];
        [left; exact H | contradiction | right; eauto].
    + cbn [fst]. destruct (decide (GetName a = n)) as [<- | Hn'].
      * left. rewrite lookup_insert_eq. eauto.
      * rewrite lookup_insert_ne by exact Hn'.
        destruct H as [H | (j & [-> | Hin] & Hty & Hn)];
          [left; exact H | contradiction | right; eauto].
Qed.

Lemma find_joints_targets (allJoints : list Joint) : forall acc n x,
  snd (find_joints allJoints acc) !! n = Some x ->
  snd acc !! n = Some x \/ x = 0%float.
Proof.
  induction allJoints as [| a rest IH]; intros acc n x H; [left; exact H |].
  cbn [find_joints] in H.
  destruct (GetType a =? FIXED_JOINT); [exact (IH _ _ _ H) |].
  destruct (IH _ _ _ H) as [H' | H']; [| right; exact H'].
  cbn [snd] in H'.
  destruct (decide (GetName a = n)) as [<- | Hn].
  - rewrite lookup_insert_eq in H'. injection H' as <-. right; reflexivity.
  - rewrite lookup_insert_ne in H' by exact Hn. left; exact H'.
Qed.

Lemma find_joints_same_keys (allJoints : list Joint) : forall acc,
  (forall n, is_Some (fst acc !! n) <-> is_Some (snd acc !! n)) ->
  forall n, is_Some (fst (find_joints allJoints acc) !! n) <->
            is_Some (snd (find_joints allJoints acc) !! n).
Proof.
  induction allJoints as [| a rest IH]; intros acc Hacc; [exact Hacc |].
  cbn [find_joints].
  destruct (GetType a =? FIXED_JOINT); [exact (IH _ Hacc) |].
  apply IH. intros n. cbn [fst snd].
  destruct (decide (GetName a = n)) as [<- | Hn].
  - rewrite !lookup_insert_eq. split; eauto.
  - rewrite !lookup_insert_ne by exact Hn. apply Hacc.
Qed.

Lemma registry_lookup (m : Model) (n : string) (j : Joint) (p : PID) :
  registry m !! n = Some (j, p) ->
  In j (GetJoints m) /\ GetName j = n /\ GetType j <> FIXED_JOINT /\ p = generic_pid.
Proof.
  intros H. destruct (find_joints_lookup _ _ _ _ _ H) as [H' | H']; [| exact H'].
  cbn in H'. rewrite lookup_empty in H'. discriminate.
Qed.

Lemma get_joint_Ok (m : Model) (n : string) (j : Joint) :
  get_joint (registry m) n = Ok j ->
  registry m !! n = Some (j, generic_pid) /\ GetName j = n.
Proof.
  unfold get_joint. intros H.
  destruct (registry m !! n) as [[j' p] |] eqn:E; [| discriminate].
  injection H as ->.
  destruct (registry_lookup _ _ _ _ E) as (_ & Hn & _ & ->). auto.
Qed.

Lemma get_joint_Err (joints : gmap string (Joint * PID)) (n : string) (e : Error) :
  get_joint joints n = Err e ->
  joints !! n = None /\ e = ConfigurationError n.
Proof.
  unfold get_joint. intros H.
  destruct (joints !! n) as [[j' p] |]; [discriminate |].
  injection H as <-. auto.
Qed.

(** ** The state [Load] builds *)

Lemma scoped_name_inj (m : Model) (a b : string) :
  scoped_name m a = scoped_name m b -> a = b.
Proof.
  unfold scoped_name. intros H.
  apply (inj (String.app (model_name m))) in H.
  apply (inj (String.app "::")) in H. exact H.
Qed.

Lemma find_joints_pair (m : Model) :
  find_joints (GetJoints m) (∅, ∅) =
    (registry m, snd (find_joints (GetJoints m) (∅, ∅))).
Proof. unfold registry. destruct (find_joints _ _); reflexivity. Qed.

Ltac bind_role H :=
  match type of H with
  | context [get_joint ?J ?n] =>
      let E := fresh "Hrole" in
      destruct (get_joint J n) eqn:E; cbn [bind] in H; [| discriminate H];
      apply get_joint_Ok in E; destruct E as [_ E]
  end.

Lemma Load_inv (shock_p shock_d : float) (m : Model) (sdf : option string)
    (st : CarGazeboPlugin) :
  Load shock_p shock_d m sdf = Ok st ->
  robot_namespace_ st = match sdf with Some ns => ns +:+ "/" | None => "" end /\
  last_sim_time_ st = 0 /\
  last_update_time_ st = 0 /\
  update_period_ms_ st = 8%float /\
  model_ st = m /\
  joints_ st = registry m /\
  joint_targets_ st = snd (find_joints (GetJoints m) (∅, ∅)) /\
  jc st = mkJC (loaded_posPids shock_p shock_d m) (loaded_velPids m)
               (loaded_positions m) (velocities (GetJointController m)) /\
  roles_named (roles st) /\
  role_pids st =
    (let shock := PID_ctor shock_p 0%float shock_d in
     let str := PID_ctor 1%float 0%float 0%float in
     let axle := PID_ctor 0.1%float 0.01%float 0.0%float in
     mkRolePids str str axle axle shock shock shock shock).
Proof.
  intros H. unfold Load in H. rewrite find_joints_pair in H.
  cbn zeta iota beta in H.
  do 10 bind_role H.
  injection H as <-. cbn.
  unfold roles_named, loaded_posPids, loaded_velPids, loaded_positions,
    GetScopedName, scoped_name. cbn.
  repeat match goal with E : GetName _ = _ |- _ => rewrite E; clear E end.
  repeat split; reflexivity.
Qed.

Ltac role_lookup :=
  repeat first
    [ rewrite lookup_insert_eq
    | rewrite lookup_insert_ne
        by (let Hc := fresh in intros Hc; apply scoped_name_inj in Hc; discriminate Hc) ];
  try reflexivity.

Lemma GetScopedName_named (m : Model) (j : Joint) (n : string) :
  GetName j = n -> GetScopedName m j = scoped_name m n.
Proof. intros <-. reflexivity. Qed.

(** C5: after a successful Load both front steering joints have the
    position PID (1, 0, 0) and both rear axle joints the velocity PID
    (0.1, 0.01, 0) in the joint controller; the front axle joints are bound
    but Load writes neither a position nor a velocity PID for them (their
    entries are the controller's own). *)
Theorem load_installs_fixed_gains (shock_p shock_d : float) (m : Model)
    (sdf : option string) (st : CarGazeboPlugin) :
  Load shock_p shock_d m sdf = Ok st ->
  let scoped := GetScopedName (model_ st) in
  let r := roles st in
  let jc0 := GetJointController m in
  posPids (jc st) !! scoped (fl_str_joint r) = Some (mkPID 1%float 0%float 0%float) /\
  posPids (jc st) !! scoped (fr_str_joint r) = Some (mkPID 1%float 0%float 0%float) /\
  velPids (jc st) !! scoped (bl_axle_joint r) = Some (mkPID 0.1%float 0.01%float 0%float) /\
  velPids (jc st) !! scoped (br_axle_joint r) = Some (mkPID 0.1%float 0.01%float 0%float) /\
  GetName (fl_axle_joint r) = "front_left_wheel_joint" /\
  GetName (fr_axle_joint r) = "front_right_wheel_joint" /\
  posPids (jc st) !! scoped (fl_axle_joint r) = posPids jc0 !! scoped (fl_axle_joint r) /\
  velPids (jc st) !! scoped (fl_axle_joint r) = velPids jc0 !! scoped (fl_axle_joint r) /\
  posPids (jc st) !! scoped (fr_axle_joint r) = posPids jc0 !! scoped (fr_axle_joint r) /\
  velPids (jc st) !! scoped (fr_axle_joint r) = velPids jc0 !! scoped (fr_axle_joint r).
Proof.
  intros H.
  destruct (Load_inv _ _ _ _ _ H)
    as (_ & _ & _ & _ & Hm & _ & _ & Hjc & Hr & _).
  destruct Hr as (N1 & N2 & N3 & N4 & N5 & N6 & _).
  cbn zeta. rewrite Hm, Hjc. cbn [posPids velPids].
  rewrite (GetScopedName_named m _ _ N1), (GetScopedName_named m _ _ N2),
    (GetScopedName_named m _ _ N3), (GetScopedName_named m _ _ N4),
    (GetScopedName_named m _ _ N5), (GetScopedName_named m _ _ N6).
  unfold loaded_posPids, loaded_velPids, PID_ctor. cbn zeta.
  repeat split; try assumption; role_lookup.
Qed.

(** Callbacks keep the model, the role bindings and the PID tables, and
    write position targets only for the two steering joints. *)
Lemma translate_frame (st : CarGazeboPlugin) (cmd : DriveCommand) :
  let st' := translate st cmd in
  model_ st' = model_ st /\ roles st' = roles st /\
  posPids (jc st') = posPids (jc st) /\ velPids (jc st') = velPids (jc st) /\
  forall k,
    k <> GetScopedName (model_ st) (fl_str_joint (roles st)) ->
    k <> GetScopedName (model_ st) (fr_str_joint (roles st)) ->
    positions (jc st') !! k = positions (jc st) !! k.
Proof.
  unfold translate. destruct (well_formed cmd); cbn; repeat split; try reflexivity.
  intros k H1 H2. rewrite !lookup_insert_ne by congruence. reflexivity.
Qed.

Lemma dispatch_frame (scale : Joy -> DriveCommand) (st : CarGazeboPlugin) (ev : Event) :
  let st' := fst (dispatch scale st ev) in
  model_ st' = model_ st /\ roles st' = roles st /\
  posPids (jc st') = posPids (jc st) /\ velPids (jc st') = velPids (jc st) /\
  forall k,
    k <> GetScopedName (model_ st) (fl_str_joint (roles st)) ->
    k <> GetScopedName (model_ st) (fr_str_joint (roles st)) ->
    positions (jc st') !! k = positions (jc st) !! k.
Proof.
  destruct ev as [tk | msg | msg]; cbn [dispatch fst].
  - destruct (Update_frame st tk) as (_ & _ & Hm & _ & _ & Hjc & Hr & _).
    cbn zeta in *. rewrite Hm, Hr, Hjc. repeat split; reflexivity.
  - apply translate_frame.
  - apply translate_frame.
Qed.

Lemma run_cons (scale : Joy -> DriveCommand) (st : CarGazeboPlugin)
    (ev : Event) (rest : list Event) :
  fst (run scale st (ev :: rest)) = fst (run scale (fst (dispatch scale st ev)) rest).
Proof.
  cbn [run]. destruct (dispatch scale st ev) as [st1 out1]. cbn [fst].
  destruct (run scale st1 rest); reflexivity.
Qed.

Lemma run_frame (scale : Joy -> DriveCommand) (evs : list Event) : forall st,
  let st' := fst (run scale st evs) in
  model_ st' = model_ st /\ roles st' = roles st /\
  posPids (jc st') = posPids (jc st) /\ velPids (jc st') = velPids (jc st) /\
  forall k,
    k <> GetScopedName (model_ st) (fl_str_joint (roles st)) ->
    k <> GetScopedName (model_ st) (fr_str_joint (roles st)) ->
    positions (jc st') !! k = positions (jc st) !! k.
Proof.
  induction evs as [| ev rest IH]; intros st; cbn zeta.
  - cbn. repeat split; reflexivity.
  - rewrite run_cons.
    destruct (dispatch_frame scale st ev) as (Hm & Hr & Hp & Hv & Hk).
    destruct (IH (fst (dispatch scale st ev))) as (Hm' & Hr' & Hp' & Hv' & Hk').
    cbn zeta in *.
    rewrite Hm', Hr', Hp', Hv', Hm, Hr, Hp, Hv. repeat split; try reflexivity.
    intros k H1 H2. rewrite Hk' by (rewrite Hm, Hr; assumption).
    apply Hk; assumption.
Qed.

(** C6: after a successful Load each of the four shock joints has the
    position PID (shock_p, 0, shock_d) and the position target 0.0, and
    after any sequence of callbacks (joystick messages, Ackermann messages
    and world updates) its PID and its target 0.0 are still in place. *)
Theorem shock_targets_stay_zero (shock_p shock_d : float)
    (scale : Joy -> DriveCommand) (m : Model) (sdf : option string)
    (st : CarGazeboPlugin) (evs : list Event) :
  Load shock_p shock_d m sdf = Ok st ->
  Forall (fun shock : Roles -> Joint =>
            posPids (jc st) !! GetScopedName (model_ st) (shock (roles st)) =
              Some (mkPID shock_p 0%float shock_d) /\
            shock_target st shock = Some 0%float /\
            posPids (jc (fst (run scale st evs))) !!
                GetScopedName (model_ st) (shock (roles st)) =
              Some (mkPID shock_p 0%float shock_d) /\
            shock_target (fst (run scale st evs)) shock = Some 0%float)
         [fl_shock_joint; fr_shock_joint; bl_shock_joint; br_shock_joint].
Proof.
  intros H.
  destruct (Load_inv _ _ _ _ _ H)
    as (_ & _ & _ & _ & Hm & _ & _ & Hjc & Hr & _).
  destruct Hr as (N1 & N2 & _ & _ & _ & _ & N7 & N8 & N9 & N10).
  destruct (run_frame scale evs st) as (Hm' & Hr' & Hp' & _ & Hk').
  cbn zeta in *.
  assert (Hother : forall n,
            n <> "front_left_wheel_steer_joint" ->
            n <> "front_right_wheel_steer_joint" ->
            positions (jc (fst (run scale st evs))) !! scoped_name m n =
            positions (jc st) !! scoped_name m n).
  { intros n H1 H2. apply Hk'; rewrite Hm.
    - rewrite (GetScopedName_named m _ _ N1). intros Hc%scoped_name_inj. auto.
    - rewrite (GetScopedName_named m _ _ N2). intros Hc%scoped_name_inj. auto. }
  unfold shock_target. rewrite Hm', Hr', Hp', Hm.
  repeat constructor;
    rewrite ?(GetScopedName_named m _ _ N7), ?(GetScopedName_named m _ _ N8),
      ?(GetScopedName_named m _ _ N9), ?(GetScopedName_named m _ _ N10);
    rewrite ?Hother by discriminate;
    rewrite Hjc; cbn [posPids positions];
    unfold loaded_posPids, loaded_positions, PID_ctor; cbn zeta; role_lookup.
Qed.

(** ** Command translation *)

(** C3: for a well-formed drive command, translation leaves both front
    steer position targets equal to the steering angle and both rear axle
    velocity targets equal to the linear speed (so speed 2.0 and angle 0.3
    give steer targets 0.3 and axle targets 2.0); an Ackermann message is
    translated as it is, a joystick message through the scale. *)
Theorem translate_sets_targets (st : CarGazeboPlugin) (cmd : DriveCommand) :
  well_formed cmd = true ->
  let st' := translate st cmd in
  steer_target st' fl_str_joint = Some (steering_angle cmd) /\
  steer_target st' fr_str_joint = Some (steering_angle cmd) /\
  axle_target st' bl_axle_joint = Some (linear_speed cmd) /\
  axle_target st' br_axle_joint = Some (linear_speed cmd) /\
  ackermann_callback st cmd = st' /\
  (forall scale msg, scale msg = cmd -> joy_callback scale st msg = st').
Proof.
  intros Hwf. unfold ackermann_callback, joy_callback, translate, steer_target, axle_target.
  rewrite Hwf. cbn.
  repeat split.
  - destruct (decide (GetScopedName (model_ st) (fr_str_joint (roles st)) =
                      GetScopedName (model_ st) (fl_str_joint (roles st)))) as [-> | Hne].
    + apply lookup_insert_eq.
    + rewrite lookup_insert_ne by exact Hne. apply lookup_insert_eq.
  - apply lookup_insert_eq.
  - destruct (decide (GetScopedName (model_ st) (br_axle_joint (roles st)) =
                      GetScopedName (model_ st) (bl_axle_joint (roles st)))) as [-> | Hne].
    + apply lookup_insert_eq.
    + rewrite lookup_insert_ne by exact Hne. apply lookup_insert_eq.
  - apply lookup_insert_eq.
  - intros scale msg E. rewrite E, Hwf. reflexivity.
Qed.

(** C4: a malformed drive command (one whose speed or angle is NaN or
    infinite) is discarded: the plugin state, and with it every per-role
    target, is what it was before, whether the command arrives as an
    Ackermann message or from the joystick, and the callback returns
    normally with no output. *)
Theorem malformed_command_discarded (st : CarGazeboPlugin) (cmd : DriveCommand) :
  well_formed cmd = false ->
  translate st cmd = st /\
  (forall role, steer_target (translate st cmd) role = steer_target st role) /\
  (forall role, axle_target (translate st cmd) role = axle_target st role) /\
  (forall role, shock_target (translate st cmd) role = shock_target st role) /\
  (forall scale, dispatch scale st (AckermannMessage cmd) = (st, [])) /\
  (forall scale msg, scale msg = cmd -> dispatch scale st (JoyMessage msg) = (st, [])).
Proof.
  intros Hwf.
  assert (E : translate st cmd = st) by (unfold translate; rewrite Hwf; reflexivity).
  repeat split; try (intros; rewrite E; reflexivity); try exact E.
  - intros scale. cbn [dispatch]. unfold ackermann_callback. rewrite E. reflexivity.
  - intros scale msg Hs. cbn [dispatch]. unfold joy_callback. rewrite Hs, E. reflexivity.
Qed.

(** ** The joint-state message *)

Lemma fill_message_spec (pos : Joint -> float)
    (entries : list (string * (Joint * PID))) : forall msg,
  fill_message entries pos msg =
    mkJointState (stamp msg)
      (name msg ++ map fst entries)
      (position msg ++ map (fun e => pos (fst (snd e))) entries).
Proof.
  induction entries as [| [n [j p]] rest IH]; intros [s ns ps]; cbn.
  - rewrite !app_nil_r. reflexivity.
  - rewrite IH. cbn. rewrite <- !app_assoc. reflexivity.
Qed.

Lemma lookup_map_Some {A B : Type} (f : A -> B) (l : list A) :
  forall (i : nat) (y : B),
  map f l !! i = Some y -> exists x, l !! i = Some x /\ y = f x.
Proof.
  induction l as [| a l IH]; intros i y H; [destruct i; discriminate |].
  destruct i as [| i]; cbn in H.
  - injection H as <-. exists a. auto.
  - apply IH. exact H.
Qed.

Lemma lookup_map {A B : Type} (f : A -> B) (l : list A) :
  forall (i : nat) (x : A),
  l !! i = Some x -> map f l !! i = Some (f x).
Proof.
  induction l as [| a l IH]; intros i x H; [destruct i; discriminate |].
  destruct i as [| i]; cbn in H |- *.
  - injection H as <-. reflexivity.
  - apply IH. exact H.
Qed.

Lemma Update_message (st : CarGazeboPlugin) (tk : Tick) (msg : JointState) :
  In (JointStatePublished msg) (snd (Update st tk)) ->
  msg = mkJointState (now tk)
          (map fst (map_to_list (joints_ st)))
          (map (fun e => Position tk (fst (snd e))) (map_to_list (joints_ st))).
Proof.
  unfold Update.
  destruct (last_sim_time_ st =? 0); [intros [] |].
  destruct (period_elapsed _ _); [| intros []].
  cbn. intros [H | [H | []]]; [discriminate |].
  injection H as <-. apply fill_message_spec.
Qed.

(** C7: every JointState message that Update publishes has as many
    positions as names, both arrays follow the iteration order of the joint
    registry, and positions[i] is the current position of the joint
    registered under names[i]. *)
Theorem joint_state_arrays_correspond (st : CarGazeboPlugin) (tk : Tick)
    (msg : JointState) :
  In (JointStatePublished msg) (snd (Update st tk)) ->
  length (name msg) = length (position msg) /\
  name msg = map fst (map_to_list (joints_ st)) /\
  position msg = map (fun e => Position tk (fst (snd e))) (map_to_list (joints_ st)) /\
  (forall (i : nat) (n : string), name msg !! i = Some n ->
     exists j pid, joints_ st !! n = Some (j, pid) /\
                   position msg !! i = Some (Position tk j)).
Proof.
  intros H. rewrite (Update_message st tk msg H). cbn [name position].
  repeat split.
  - rewrite !length_map. reflexivity.
  - intros i n Hi.
    apply lookup_map_Some in Hi. destruct Hi as ([n' [j pid]] & Hi & ->).
    exists j, pid. split.
    + apply elem_of_map_to_list. apply (list_elem_of_lookup_2 _ i). exact Hi.
    + apply (lookup_map (fun e => Position tk (fst (snd e))) _ i _ Hi).
Qed.

(** ** Missing role joints *)

Ltac bind_role_keep H :=
  match type of H with
  | context [get_joint ?J ?n] =>
      let E := fresh "Hrole" in
      destruct (get_joint J n) eqn:E; cbn [bind] in H;
      [ apply get_joint_Ok in E; destruct E as [E _] | ]
  end.

Lemma Load_Ok_bound (shock_p shock_d : float) (m : Model) (sdf : option string)
    (st : CarGazeboPlugin) :
  Load shock_p shock_d m sdf = Ok st ->
  forall n, In n role_joint_names -> is_Some (registry m !! n).
Proof.
  intros H. unfold Load in H. rewrite find_joints_pair in H.
  cbn zeta iota beta in H.
  do 10 (bind_role_keep H; [| discriminate H]).
  intros n Hn. cbn in Hn.
  repeat (destruct Hn as [<- | Hn]; [eauto |]). destruct Hn.
Qed.

Lemma Load_Err (shock_p shock_d : float) (m : Model) (sdf : option string)
    (e : Error) :
  Load shock_p shock_d m sdf = Err e ->
  exists n, In n role_joint_names /\ registry m !! n = None /\
            e = ConfigurationError n.
Proof.
  intros H. unfold Load in H. rewrite find_joints_pair in H.
  cbn zeta iota beta in H.
  do 10 (bind_role_keep H;
         [| injection H as <-;
            match goal with
            | E : get_joint _ ?n = Err _ |- _ =>
                apply get_joint_Err in E; destruct E as [E ->];
                exists n; split; [cbn; tauto | split; [exact E | reflexivity]]
            end]).
  discriminate H.
Qed.

(** C8: if a required role joint name is absent from the discovered joint
    set, Load fails with a ConfigurationError naming an absent role joint,
    and the session ends with that error without processing any callback. *)
Theorem missing_role_joint_aborts_load (shock_p shock_d : float) (m : Model)
    (sdf : option string) (n : string) :
  In n role_joint_names ->
  registry m !! n = None ->
  exists n',
    In n' role_joint_names /\ registry m !! n' = None /\
    Load shock_p shock_d m sdf = Err (ConfigurationError n') /\
    forall scale evs,
      session shock_p shock_d scale m sdf evs = Err (ConfigurationError n').
Proof.
  intros Hin Hnone.
  destruct (Load shock_p shock_d m sdf) as [st | e] eqn:HL.
  - destruct (Load_Ok_bound _ _ _ _ _ HL n Hin) as [x Hx]. congruence.
  - destruct (Load_Err _ _ _ _ _ HL) as (n' & Hin' & Hnone' & ->).
    exists n'. repeat split; try assumption.
    intros scale evs. unfold session. rewrite HL. reflexivity.
Qed.

(** ** The registry *)

(** A joint of Gazebo passes the loop's test: its type mask has the JOINT
    bit, so it is not the bare [FIXED_JOINT]. *)
Lemma typed_joint_not_skipped (j : Joint) :
  HasType j JOINT = true -> GetType j <> FIXED_JOINT.
Proof.
  unfold HasType. intros H E. rewrite E in H. discriminate H.
Qed.

Lemma find_joints_app (pre post : list Joint) : forall acc,
  find_joints (pre ++ post) acc = find_joints post (find_joints pre acc).
Proof.
  induction pre as [| a pre IH]; intros acc; [reflexivity |].
  cbn [app find_joints]. destruct (GetType a =? FIXED_JOINT); apply IH.
Qed.

Lemma find_joints_other_names (post : list Joint) (n : string) : forall acc,
  (forall j, In j post -> GetType j <> FIXED_JOINT -> GetName j <> n) ->
  fst (find_joints post acc) !! n = fst acc !! n.
Proof.
  induction post as [| a post IH]; intros acc H; [reflexivity |].
  cbn [find_joints].
  destruct (Z.eqb_spec (GetType a) FIXED_JOINT) as [E | NE].
  - apply IH. intros j Hj. apply H. right; exact Hj.
  - rewrite IH by (intros j Hj; apply H; right; exact Hj).
    cbn [fst]. apply lookup_insert_ne. apply H; [left; reflexivity | exact NE].
Qed.

(** The loop keeps, under a name, the last joint it does not skip. *)
Lemma registry_last_not_skipped (m : Model) (pre post : list Joint) (j : Joint) :
  GetJoints m = pre ++ j :: post ->
  GetType j <> FIXED_JOINT ->
  (forall j', In j' post -> GetType j' <> FIXED_JOINT -> GetName j' <> GetName j) ->
  registry m !! GetName j = Some (j, mkPID 200%float 0%float 0%float).
Proof.
  intros Hm Hty Hpost. unfold registry. rewrite Hm, find_joints_app.
  cbn [find_joints].
  destruct (Z.eqb_spec (GetType j) FIXED_JOINT) as [E | _]; [contradiction |].
  rewrite find_joints_other_names by exact Hpost.
  cbn [fst]. apply lookup_insert_eq.
Qed.

(** C9 (defect of the code): the discovery loop skips a joint only when
    GetType() equals FIXED_JOINT, but a fixed joint's type mask also has the
    JOINT bit, so the test fails for it: after a successful Load a fixed
    joint of the model is in the registry with the PID (200, 0, 0) and has
    its 0.0 entry in joint_targets_, although the loop means to leave fixed
    joints out. *)
Theorem fixed_joint_enters_registry (shock_p shock_d : float) (m : Model)
    (sdf : option string) (st : CarGazeboPlugin)
    (pre post : list Joint) (j : Joint) :
  Load shock_p shock_d m sdf = Ok st ->
  GetJoints m = pre ++ j :: post ->
  HasType j JOINT = true ->
  HasType j FIXED_JOINT = true ->
  (forall j', In j' post -> GetName j' <> GetName j) ->
  (GetType j =? FIXED_JOINT) = false /\
  joints_ st !! GetName j = Some (j, mkPID 200%float 0%float 0%float) /\
  joint_targets_ st !! GetName j = Some 0%float.
Proof.
  intros HL Hm Hjoint Hfixed Hpost.
  pose proof (typed_joint_not_skipped j Hjoint) as Hty.
  destruct (Load_inv _ _ _ _ _ HL) as (_ & _ & _ & _ & _ & Hj & Ht & _).
  assert (Hreg : registry m !! GetName j = Some (j, mkPID 200%float 0%float 0%float)).
  { apply (registry_last_not_skipped m pre post j Hm Hty).
    intros j' Hin _. exact (Hpost j' Hin). }
  split; [apply Z.eqb_neq; exact Hty |].
  split; [rewrite Hj; exact Hreg |].
  rewrite Ht.
  pose proof (find_joints_same_keys (GetJoints m) (∅, ∅)) as Hk.
  specialize (Hk ltac:(intros k; cbn; rewrite !lookup_empty; split; intros [? ?]; discriminate)
                 (GetName j)).
  destruct (proj1 Hk) as [x Hx]; [unfold registry in Hreg; eauto |].
  destruct (find_joints_targets _ _ _ _ Hx) as [Hx' | ->]; [| exact Hx].
  cbn in Hx'. rewrite lookup_empty in Hx'. discriminate.
Qed.

(** ** Ticks at simulation time zero *)

Lemma outputs_cons (st : CarGazeboPlugin) (tk : Tick) (rest : list Tick) :
  outputs st (tk :: rest) = snd (Update st tk) ++ outputs (fst (Update st tk)) rest.
Proof. cbn [outputs]. destruct (Update st tk); reflexivity. Qed.

Lemma outputs_app (pre post : list Tick) : forall st,
  outputs st (pre ++ post) = outputs st pre ++ outputs (exec st pre) post.
Proof.
  induction pre as [| tk rest IH]; intros st; [reflexivity |].
  cbn [app]. rewrite !outputs_cons, exec_cons, IH. apply app_assoc.
Qed.

Lemma exec_frame (ticks : list Tick) : forall st,
  jc (exec st ticks) = jc st /\
  joint_targets_ (exec st ticks) = joint_targets_ st /\
  joints_ (exec st ticks) = joints_ st /\
  roles (exec st ticks) = roles st /\
  model_ (exec st ticks) = model_ st.
Proof.
  induction ticks as [| tk rest IH]; intros st; [repeat split |].
  rewrite exec_cons.
  destruct (IH (fst (Update st tk))) as (-> & -> & -> & -> & ->).
  destruct (Update_frame st tk) as (_ & _ & Hm & Hj & Ht & Hjc & Hr & _).
  cbn zeta in *. auto.
Qed.

Lemma exec_zero_ticks (ticks : list Tick) : forall st,
  last_sim_time_ st = 0 ->
  Forall (fun tk => SimTime tk = 0) ticks ->
  last_sim_time_ (exec st ticks) = 0 /\ outputs st ticks = [].
Proof.
  induction ticks as [| tk rest IH]; intros st H0 Hall; [auto |].
  inversion Hall as [| ? ? Htk Hrest]; subst.
  rewrite exec_cons, outputs_cons.
  destruct (IH (fst (Update st tk))) as [IH1 IH2];
    [rewrite Update_last_sim_time; exact Htk | exact Hrest |].
  rewrite IH1, IH2, (Update_calibrates st tk H0). auto.
Qed.

(** C10: from the state Load leaves (last_sim_time = 0), every tick whose
    simulation time is 0 takes the calibration branch again: the plugin is
    still uninitialised after any number of such ticks, Update changes
    neither the joint controller's targets nor joint_targets_ (whose entries
    are all 0.0), no output is produced on those ticks, and none on the
    tick that follows them either. *)
Theorem zero_time_ticks_recalibrate (shock_p shock_d : float) (m : Model)
    (sdf : option string) (st : CarGazeboPlugin) (ticks : list Tick) :
  Load shock_p shock_d m sdf = Ok st ->
  Forall (fun tk => SimTime tk = 0) ticks ->
  (forall pre tk post, ticks = pre ++ tk :: post ->
     last_sim_time_ (exec st pre) = 0 /\
     Update (exec st pre) tk =
       (set_times (exec st pre) (SimTime tk) (SimTime tk), [])) /\
  last_sim_time_ (exec st ticks) = 0 /\
  jc (exec st ticks) = jc st /\
  joint_targets_ (exec st ticks) = joint_targets_ st /\
  (forall n x, joint_targets_ st !! n = Some x -> x = 0%float) /\
  outputs st ticks = [] /\
  (forall tk, outputs st (ticks ++ [tk]) = []).
Proof.
  intros HL Hall.
  destruct (Load_inv _ _ _ _ _ HL) as (_ & H0 & _ & _ & _ & _ & Ht & _).
  destruct (exec_zero_ticks ticks st H0 Hall) as [Hz Ho].
  destruct (exec_frame ticks st) as (Hjc & Htg & _).
  repeat split; try assumption.
  - subst ticks. apply Forall_app in Hall. destruct Hall as [Hpre _].
    apply (exec_zero_ticks pre st H0 Hpre).
  - subst ticks. apply Forall_app in Hall. destruct Hall as [Hpre _].
    apply Update_calibrates. apply (exec_zero_ticks pre st H0 Hpre).
  - intros n x Hx. rewrite Ht in Hx.
    destruct (find_joints_targets _ _ _ _ Hx) as [Hx' | Hx']; [| exact Hx'].
    cbn in Hx'. rewrite lookup_empty in Hx'. discriminate.
  - intros tk. rewrite outputs_app, Ho. cbn [app].
    rewrite outputs_cons, (Update_calibrates _ tk Hz). reflexivity.
Qed.

(** ** The concrete car *)

Lemma demo_loaded : Load 30000%float 1000%float demo_model None = Ok demo_plugin.
Proof. vm_compute. reflexivity. Qed.

Lemma publish_gated_by_period_witness :
  0 < last_sim_time_ demo_running /\
  increasing (last_sim_time_ demo_running) demo_ticks /\
  publish_times demo_running demo_ticks = [9000000; 17000000; 30000000] /\
  (forall (i : nat) t1 t2,
     publish_times demo_running demo_ticks !! i = Some t1 ->
     publish_times demo_running demo_ticks !! S i = Some t2 ->
     period_elapsed (update_period_ms_ demo_running) (Double (t2 - t1)) = true).
Proof.
  assert (H1 : 0 < last_sim_time_ demo_running) by (vm_compute; reflexivity).
  assert (H2 : increasing (last_sim_time_ demo_running) demo_ticks)
    by (vm_compute; repeat split).
  split; [exact H1 |]. split; [exact H2 |].
  split; [vm_compute; reflexivity |].
  exact (proj2 (publish_gated_by_period demo_running demo_ticks H1 H2)).
Defined.

Lemma first_tick_calibrates_witness :
  last_sim_time_ demo_plugin = 0 /\
  snd (Update demo_plugin (tick_at 5000000)) = [] /\
  last_update_time_ (fst (Update demo_plugin (tick_at 5000000))) = 5000000.
Proof.
  assert (H : last_sim_time_ demo_plugin = 0) by (vm_compute; reflexivity).
  split; [exact H |].
  destruct (first_tick_calibrates demo_plugin (tick_at 5000000) H) as (A & _ & _ & B).
  split; [exact A | exact B].
Defined.

Lemma translate_sets_targets_witness :
  well_formed demo_cmd = true /\
  steer_target (translate demo_plugin demo_cmd) fl_str_joint = Some 0.3%float /\
  steer_target (translate demo_plugin demo_cmd) fr_str_joint = Some 0.3%float /\
  axle_target (translate demo_plugin demo_cmd) bl_axle_joint = Some 2.0%float /\
  axle_target (translate demo_plugin demo_cmd) br_axle_joint = Some 2.0%float.
Proof.
  assert (H : well_formed demo_cmd = true) by (vm_compute; reflexivity).
  split; [exact H |].
  destruct (translate_sets_targets demo_plugin demo_cmd H) as (A & B & C & D & _).
  repeat split; assumption.
Defined.

Lemma malformed_command_discarded_witness :
  well_formed nan_cmd = false /\ translate demo_plugin nan_cmd = demo_plugin.
Proof.
  assert (H : well_formed nan_cmd = false) by (vm_compute; reflexivity).
  split; [exact H |].
  exact (proj1 (malformed_command_discarded demo_plugin nan_cmd H)).
Defined.

Lemma load_installs_fixed_gains_witness :
  Load 30000%float 1000%float demo_model None = Ok demo_plugin /\
  posPids (jc demo_plugin) !! "car::front_left_wheel_steer_joint" =
    Some (mkPID 1%float 0%float 0%float) /\
  velPids (jc demo_plugin) !! "car::back_right_wheel_joint" =
    Some (mkPID 0.1%float 0.01%float 0%float) /\
  posPids (jc demo_plugin) !! "car::front_left_wheel_joint" = None.
Proof.
  split; [exact demo_loaded |].
  destruct (load_installs_fixed_gains _ _ _ _ _ demo_loaded)
    as (A & _ & _ & D & _ & _ & G & _).
  split; [exact A |]. split; [exact D |]. exact G.
Defined.

Lemma shock_targets_stay_zero_witness :
  Load 30000%float 1000%float demo_model None = Ok demo_plugin /\
  shock_target
    (fst (run (fun _ => demo_cmd) demo_plugin
            [AckermannMessage demo_cmd; WorldUpdate (tick_at 1000000);
             JoyMessage (mkJoy [] []); WorldUpdate (tick_at 20000000)]))
    bl_shock_joint = Some 0%float.
Proof.
  split; [exact demo_loaded |].
  pose proof (shock_targets_stay_zero 30000%float 1000%float (fun _ => demo_cmd)
                demo_model None demo_plugin
                [AckermannMessage demo_cmd; WorldUpdate (tick_at 1000000);
                 JoyMessage (mkJoy [] []); WorldUpdate (tick_at 20000000)]
                demo_loaded) as H.
  inversion H as [| ? ? _ Ha]. inversion Ha as [| ? ? _ Hb].
  inversion Hb as [| ? ? Hc _]. exact (proj2 (proj2 (proj2 Hc))).
Defined.

Lemma joint_state_arrays_correspond_witness :
  In (JointStatePublished demo_msg) (snd (Update demo_running (tick_at 9000000))) /\
  length (name demo_msg) = 11%nat /\
  length (name demo_msg) = length (position demo_msg).
Proof.
  assert (H : In (JointStatePublished demo_msg)
                 (snd (Update demo_running (tick_at 9000000))))
    by (vm_compute; right; left; reflexivity).
  split; [exact H |]. split; [vm_compute; reflexivity |].
  exact (proj1 (joint_state_arrays_correspond _ _ _ H)).
Defined.

Lemma missing_role_joint_aborts_load_witness :
  In "back_left_shock_joint" role_joint_names /\
  registry broken_model !! "back_left_shock_joint" = None /\
  exists n',
    In n' role_joint_names /\ registry broken_model !! n' = None /\
    Load 30000%float 1000%float broken_model None = Err (ConfigurationError n') /\
    forall scale evs,
      session 30000%float 1000%float scale broken_model None evs =
        Err (ConfigurationError n').
Proof.
  assert (H1 : In "back_left_shock_joint" role_joint_names) by (cbn; tauto).
  assert (H2 : registry broken_model !! "back_left_shock_joint" = None)
    by (vm_compute; reflexivity).
  split; [exact H1 |]. split; [exact H2 |].
  exact (missing_role_joint_aborts_load _ _ broken_model None _ H1 H2).
Defined.

Lemma welded_loaded :
  Load 30000%float 1000%float welded_model None = Ok welded_plugin.
Proof. vm_compute. reflexivity. Qed.

Lemma fixed_joint_enters_registry_witness :
  Load 30000%float 1000%float welded_model None = Ok welded_plugin /\
  HasType (mkJoint "chassis_weld" weld) FIXED_JOINT = true /\
  joints_ welded_plugin !! "chassis_weld" =
    Some (mkJoint "chassis_weld" weld, mkPID 200%float 0%float 0%float).
Proof.
  assert (Hf : HasType (mkJoint "chassis_weld" weld) FIXED_JOINT = true)
    by reflexivity.
  split; [exact welded_loaded |]. split; [exact Hf |].
  destruct (fixed_joint_enters_registry _ _ welded_model None welded_plugin
              (filter (fun j => negb (GetType j =? FIXED_JOINT)) demo_joints) []
              (mkJoint "chassis_weld" weld) welded_loaded) as (_ & B & _).
  - reflexivity.
  - reflexivity.
  - exact Hf.
  - intros j' [].
  - exact B.
Defined.

Lemma zero_time_ticks_recalibrate_witness :
  Load 30000%float 1000%float demo_model None = Ok demo_plugin /\
  Forall (fun tk => SimTime tk = 0) [tick_at 0; tick_at 0; tick_at 0] /\
  last_sim_time_ (exec demo_plugin [tick_at 0; tick_at 0; tick_at 0]) = 0 /\
  outputs demo_plugin [tick_at 0; tick_at 0; tick_at 0] = [].
Proof.
  assert (H : Forall (fun tk => SimTime tk = 0) [tick_at 0; tick_at 0; tick_at 0])
    by (repeat constructor).
  split; [exact demo_loaded |]. split; [exact H |].
  destruct (zero_time_ticks_recalibrate _ _ _ _ _ _ demo_loaded H)
    as (_ & A & _ & _ & _ & B & _).
  split; [exact A | exact B].
Defined.

(** * Further properties of the code *)

(** ** The period test in nanoseconds *)

Lemma add_of_Z (base : int) (a b : Z) :
  Uint63.add (Uint63.add base (Uint63.of_Z a)) (Uint63.of_Z b) =
  Uint63.add base (Uint63.of_Z (a + b)).
Proof.
  apply Uint63.to_Z_inj.
  rewrite !Uint63.add_spec, !Uint63.of_Z_spec.
  rewrite Zplus_mod_idemp_l, Zplus_mod_idemp_r.
  replace (Uint63.to_Z base + a mod wB + b)
    with (Uint63.to_Z base + b + a mod wB) by lia.
  rewrite !Zplus_mod_idemp_r. f_equal. lia.
Qed.

Lemma add_of_Z_0 (base : int) : Uint63.add base (Uint63.of_Z 0) = base.
Proof.
  apply Uint63.to_Z_inj.
  rewrite Uint63.add_spec, Uint63.of_Z_spec, Z.mod_0_l, Z.add_0_r by discriminate.
  apply Z.mod_small. apply Uint63.to_Z_bounded.
Qed.

Lemma all_block_spec (P : int -> bool) (k : nat) : forall base,
  all_block (strides k) base P = true ->
  forall j, 0 <= j < 2 ^ Z.of_nat k -> P (Uint63.add base (Uint63.of_Z j)) = true.
Proof.
  induction k as [| k IH]; intros base H j Hj.
  - assert (j = 0) by (cbn in Hj; lia). subst j. rewrite add_of_Z_0. exact H.
  - cbn [strides all_block] in H. apply andb_true_iff in H. destruct H as [Hlo Hhi].
    rewrite Nat2Z.inj_succ, Z.pow_succ_r in Hj by lia.
    destruct (Z.lt_ge_cases j (2 ^ Z.of_nat k)) as [Hlt | Hge].
    + apply IH; [exact Hlo | lia].
    + replace j with (2 ^ Z.of_nat k + (j - 2 ^ Z.of_nat k)) by lia.
      rewrite <- add_of_Z. apply IH; [exact Hhi | lia].
Qed.

Lemma gate_agrees_below_2p24 : all_block (strides 24) 0%uint63 gate_agrees = true.
Proof. vm_compute. reflexivity. Qed.

Lemma Double_below_one_second (n : Z) :
  0 <= n < nsInSec ->
  Double n = PrimFloat.add 0%float
               (PrimFloat.mul (PrimFloat.of_uint63 (Uint63.of_Z n)) 1e-9%float).
Proof.
  intros Hn. unfold Double, sec, nsec.
  rewrite Z.quot_small, Z.rem_small by exact Hn.
  unfold Z2F. destruct (Z.ltb_spec n 0) as [Hneg | _]; [lia | reflexivity].
Qed.

Lemma period_elapsed_exact (n : Z) :
  0 <= n < 16777216 ->
  period_elapsed 8%float (Double n) = (8000000 <=? n).
Proof.
  intros Hn.
  rewrite Double_below_one_second by (unfold nsInSec; lia).
  pose proof (all_block_spec gate_agrees 24 0%uint63 gate_agrees_below_2p24 n Hn) as H.
  assert (E : Uint63.add 0 (Uint63.of_Z n) = Uint63.of_Z n).
  { apply Uint63.to_Z_inj. rewrite Uint63.add_spec, Uint63.to_Z_0, Z.add_0_l.
    apply Z.mod_small. apply Uint63.to_Z_bounded. }
  rewrite E in H. unfold gate_agrees in H. apply Bool.eqb_prop in H.
  fold (elapsed_8ms (Uint63.of_Z n)). rewrite H.
  assert (Hz : Uint63.to_Z (Uint63.of_Z n) = n).
  { rewrite Uint63.of_Z_spec. apply Z.mod_small.
    change wB with 9223372036854775808. lia. }
  destruct (Z.leb_spec 8000000 n) as [Hle | Hgt].
  - apply Uint63.leb_spec. rewrite Hz. exact Hle.
  - apply not_true_is_false. intros Hc. apply Uint63.leb_spec in Hc.
    rewrite Hz in Hc. change (Uint63.to_Z 8000000) with 8000000 in Hc. lia.
Qed.

Lemma period_elapsed_lower_bound (dt : Z) :
  0 <= dt -> period_elapsed 8%float (Double dt) = true -> 8000000 <= dt.
Proof.
  intros H0 Hg. destruct (Z.lt_ge_cases dt 16777216) as [Hlt | Hge]; [| lia].
  rewrite period_elapsed_exact in Hg by lia. apply Z.leb_le. exact Hg.
Qed.

(** X1: in the running state with the default period, a tick that comes less
    than 2^24 ns (16.7 ms) after the last publish publishes a joint state
    exactly when at least 8 000 000 ns have passed since that publish. *)
Theorem tick_publishes_iff_8ms (st : CarGazeboPlugin) (tk : Tick) :
  last_sim_time_ st <> 0 ->
  update_period_ms_ st = 8%float ->
  0 <= SimTime tk - last_update_time_ st < 16777216 ->
  publishes (snd (Update st tk)) = (8000000 <=? SimTime tk - last_update_time_ st).
Proof.
  intros Hrun Hp Hdt.
  destruct (Update_gate st tk Hrun) as [-> _].
  rewrite Hp. apply period_elapsed_exact. exact Hdt.
Qed.

Lemma tick_publishes_iff_8ms_witness :
  last_sim_time_ demo_running <> 0 /\
  update_period_ms_ demo_running = 8%float /\
  0 <= SimTime (tick_at 8999999) - last_update_time_ demo_running < 16777216 /\
  publishes (snd (Update demo_running (tick_at 8999999))) =
    (8000000 <=? SimTime (tick_at 8999999) - last_update_time_ demo_running).
Proof.
  assert (Hrun : last_sim_time_ demo_running <> 0) by (vm_compute; discriminate).
  assert (Hp : update_period_ms_ demo_running = 8%float) by (vm_compute; reflexivity).
  assert (Hdt : 0 <= SimTime (tick_at 8999999) - last_update_time_ demo_running
                < 16777216)
    by (vm_compute; split; [discriminate | reflexivity]).
  split; [exact Hrun |]. split; [exact Hp |]. split; [exact Hdt |].
  exact (tick_publishes_iff_8ms demo_running (tick_at 8999999) Hrun Hp Hdt).
Defined.

(** ** Spacing of publishes *)

Lemma publish_times_above (ticks : list Tick) : forall st t,
  increasing t ticks -> Forall (fun x => t < x) (publish_times st ticks).
Proof.
  induction ticks as [| tk rest IH]; intros st t Hinc; [constructor |].
  destruct Hinc as [Hlt Hinc]. rewrite publish_times_cons.
  assert (Hrest : Forall (fun x => t < x) (publish_times (fst (Update st tk)) rest)).
  { eapply Forall_impl; [apply (IH _ _ Hinc) |]. cbn. intros; lia. }
  destruct (publishes _); [constructor; assumption | exact Hrest].
Qed.

Lemma publish_times_sorted (ticks : list Tick) : forall st t (i : nat) t1 t2,
  increasing t ticks ->
  publish_times st ticks !! i = Some t1 ->
  publish_times st ticks !! S i = Some t2 ->
  t1 < t2.
Proof.
  induction ticks as [| tk rest IH]; intros st t i t1 t2 Hinc H1 H2; [discriminate |].
  destruct Hinc as [Hlt Hinc]. rewrite publish_times_cons in H1, H2.
  destruct (publishes _).
  - destruct i as [| i'].
    + injection H1 as <-. cbn in H2.
      pose proof (publish_times_above rest (fst (Update st tk)) _ Hinc) as Hab.
      rewrite Forall_lookup in Hab. apply (Hab 0%nat). exact H2.
    + apply (IH _ _ i' t1 t2 Hinc H1 H2).
  - apply (IH _ _ i t1 t2 Hinc H1 H2).
Qed.

Lemma successive_publishes_8ms (st : CarGazeboPlugin) (ticks : list Tick)
    (i : nat) (t1 t2 : Time) :
  update_period_ms_ st = 8%float ->
  0 < last_sim_time_ st ->
  increasing (last_sim_time_ st) ticks ->
  publish_times st ticks !! i = Some t1 ->
  publish_times st ticks !! S i = Some t2 ->
  t1 + 8000000 <= t2.
Proof.
  intros Hp Hpos Hinc H1 H2.
  pose proof (successive_publishes_gate ticks st i t1 t2 Hpos Hinc H1 H2) as Hg.
  pose proof (publish_times_sorted ticks st _ i t1 t2 Hinc H1 H2) as Hlt.
  rewrite Hp in Hg. apply period_elapsed_lower_bound in Hg; lia.
Qed.

(** X2: with the default period, along strictly increasing simulation times,
    the j-th publish of a run comes at least (j - i) * 8 000 000 ns after
    the i-th: at most one joint state is published per 8 ms of simulated
    time. *)
Theorem publishes_at_least_8ms_apart (st : CarGazeboPlugin) (ticks : list Tick)
    (i j : nat) (ti tj : Time) :
  update_period_ms_ st = 8%float ->
  0 < last_sim_time_ st ->
  increasing (last_sim_time_ st) ticks ->
  (i <= j)%nat ->
  publish_times st ticks !! i = Some ti ->
  publish_times st ticks !! j = Some tj ->
  ti + 8000000 * Z.of_nat (j - i) <= tj.
Proof.
  intros Hp Hpos Hinc Hij Hi.
  replace j with (i + (j - i))%nat by lia.
  replace (i + (j - i) - i)%nat with (j - i)%nat by lia.
  generalize (j - i)%nat as d. clear j Hij.
  intros d. revert tj. induction d as [| d IH]; intros tj Hj.
  - rewrite Nat.add_0_r in Hj. rewrite Hi in Hj. injection Hj as <-. lia.
  - replace (i + S d)%nat with (S (i + d)) in Hj by lia.
    destruct (lookup_lt_is_Some_2 (publish_times st ticks) (i + d)) as [tm Hm].
    { apply lookup_lt_Some in Hj. lia. }
    pose proof (IH tm Hm) as Hm'.
    pose proof (successive_publishes_8ms st ticks _ tm tj Hp Hpos Hinc Hm Hj).
    lia.
Qed.

Lemma publishes_at_least_8ms_apart_witness :
  publish_times demo_running demo_ticks !! 0%nat = Some 9000000 /\
  publish_times demo_running demo_ticks !! 2%nat = Some 30000000 /\
  9000000 + 8000000 * Z.of_nat (2 - 0) <= 30000000.
Proof.
  assert (Hp : update_period_ms_ demo_running = 8%float) by (vm_compute; reflexivity).
  assert (H1 : 0 < last_sim_time_ demo_running) by (vm_compute; reflexivity).
  assert (H2 : increasing (last_sim_time_ demo_running) demo_ticks)
    by (vm_compute; repeat split).
  assert (Hi : publish_times demo_running demo_ticks !! 0%nat = Some 9000000)
    by (vm_compute; reflexivity).
  assert (Hj : publish_times demo_running demo_ticks !! 2%nat = Some 30000000)
    by (vm_compute; reflexivity).
  split; [exact Hi |]. split; [exact Hj |].
  apply (publishes_at_least_8ms_apart demo_running demo_ticks 0 2 _ _ Hp H1 H2);
    [lia | exact Hi | exact Hj].
Defined.

Lemma publishes_after_last_update (st : CarGazeboPlugin) (ticks : list Tick) :
  update_period_ms_ st = 8%float ->
  0 < last_sim_time_ st ->
  last_update_time_ st <= last_sim_time_ st ->
  increasing (last_sim_time_ st) ticks ->
  Forall (fun t => last_update_time_ st + 8000000 <= t) (publish_times st ticks).
Proof.
  intros Hp Hpos Hle Hinc.
  apply Forall_lookup. intros k x Hx.
  destruct (lookup_lt_is_Some_2 (publish_times st ticks) 0) as [t Ht].
  { apply lookup_lt_Some in Hx. unfold Time in *. lia. }
  pose proof (publishes_at_least_8ms_apart st ticks 0 k t x Hp Hpos Hinc
                ltac:(lia) Ht Hx) as Hk.
  destruct (publish_times st ticks) as [| t' ts] eqn:Hpt; [discriminate |].
  injection Ht as ->.
  pose proof (first_publish_gate ticks st t ts Hpos Hinc Hpt) as Hg.
  pose proof (publish_times_above ticks st _ Hinc) as Hab.
  rewrite Hpt in Hab. inversion Hab as [| ? ? Hlt _]; subst.
  rewrite Hp in Hg. apply period_elapsed_lower_bound in Hg; lia.
Qed.

(** X3: after a successful Load, along ticks at positive, strictly increasing simulation
    times, nothing is published on the first tick and every publish comes
    at least 8 000 000 ns after the first tick. *)
Theorem no_publish_within_8ms_of_first_tick (shock_p shock_d : float) (m : Model)
    (sdf : option string) (st : CarGazeboPlugin) (tk0 : Tick) (rest : list Tick) :
  Load shock_p shock_d m sdf = Ok st ->
  0 < SimTime tk0 ->
  increasing (SimTime tk0) rest ->
  Forall (fun t => SimTime tk0 + 8000000 <= t) (publish_times st (tk0 :: rest)).
Proof.
  intros HL Hpos Hinc.
  destruct (Load_inv _ _ _ _ _ HL) as (_ & H0 & _ & Hp & _).
  rewrite publish_times_cons, (Update_calibrates st tk0 H0).
  cbn [snd fst publishes existsb].
  apply (publishes_after_last_update (set_times st (SimTime tk0) (SimTime tk0)) rest).
  - exact Hp.
  - exact Hpos.
  - cbn. lia.
  - exact Hinc.
Qed.

Lemma no_publish_within_8ms_of_first_tick_witness :
  publish_times demo_plugin (map tick_at [1000000; 5000000; 8999999; 9000000]) =
    [9000000] /\
  Forall (fun t => 1000000 + 8000000 <= t)
    (publish_times demo_plugin (map tick_at [1000000; 5000000; 8999999; 9000000])).
Proof.
  split; [vm_compute; reflexivity |].
  apply (no_publish_within_8ms_of_first_tick _ _ _ _ demo_plugin
           (tick_at 1000000) (map tick_at [5000000; 8999999; 9000000]) demo_loaded).
  - vm_compute. reflexivity.
  - vm_compute. repeat split.
Defined.

(** ** What world updates leave alone *)

Lemma Update_shape (st : CarGazeboPlugin) (tk : Tick) :
  fst (Update st tk) =
    set_times st (SimTime tk) (last_update_time_ (fst (Update st tk))).
Proof.
  unfold Update.
  destruct (last_sim_time_ st =? 0); [reflexivity |].
  destruct (period_elapsed _ _); reflexivity.
Qed.

(** X4: a run of world updates changes the two timestamps and nothing else,
    and last_sim_time ends as the simulation time of the last tick. *)
Theorem world_updates_only_write_timestamps (st : CarGazeboPlugin)
    (ticks : list Tick) :
  exec st ticks =
    set_times st (List.last (map SimTime ticks) (last_sim_time_ st))
                 (last_update_time_ (exec st ticks)).
Proof.
  revert st. induction ticks as [| tk rest IH]; intros st.
  - destruct st; reflexivity.
  - rewrite exec_cons, IH. cbn [map]. rewrite last_cons_default.
    rewrite Update_last_sim_time.
    rewrite (Update_shape st tk) at 1. reflexivity.
Qed.

(** X5: while the simulation clock never goes back, last_update_time never
    exceeds last_sim_time. *)
Theorem last_update_never_ahead (st : CarGazeboPlugin) (ticks : list Tick) :
  last_update_time_ st <= last_sim_time_ st ->
  nondecreasing (last_sim_time_ st) ticks ->
  last_update_time_ (exec st ticks) <= last_sim_time_ (exec st ticks).
Proof.
  revert st. induction ticks as [| tk rest IH]; intros st Hle Hnd; [exact Hle |].
  destruct Hnd as [Ht Hnd]. rewrite exec_cons. apply IH.
  - unfold Update. destruct (last_sim_time_ st =? 0); [cbn; lia |].
    destruct (period_elapsed _ _); cbn; lia.
  - rewrite Update_last_sim_time. exact Hnd.
Qed.

Lemma last_update_never_ahead_witness :
  last_update_time_ demo_plugin <= last_sim_time_ demo_plugin /\
  nondecreasing (last_sim_time_ demo_plugin)
    (map tick_at [0; 0; 1000000; 1000000; 9000000; 12000000]) /\
  last_update_time_
    (exec demo_plugin (map tick_at [0; 0; 1000000; 1000000; 9000000; 12000000])) <=
  last_sim_time_
    (exec demo_plugin (map tick_at [0; 0; 1000000; 1000000; 9000000; 12000000])).
Proof.
  assert (H1 : last_update_time_ demo_plugin <= last_sim_time_ demo_plugin)
    by (vm_compute; discriminate).
  assert (H2 : nondecreasing (last_sim_time_ demo_plugin)
                 (map tick_at [0; 0; 1000000; 1000000; 9000000; 12000000]))
    by (vm_compute; repeat split; discriminate).
  split; [exact H1 |]. split; [exact H2 |].
  exact (last_update_never_ahead demo_plugin _ H1 H2).
Defined.

(** ** Names in the joint-state message *)

Lemma map_fmap {A B : Type} (f : A -> B) (l : list A) : map f l = f <$> l.
Proof. induction l as [| a l IH]; [reflexivity |]. cbn. rewrite IH. reflexivity. Qed.

(** X6: every joint-state message published after a successful Load,
    whatever world updates came before, has no duplicate name and names
    exactly the joints of the model whose GetType() differs from
    FIXED_JOINT; in a model whose joints all carry the JOINT type bit, as
    Gazebo's joints do, it names every joint of the model, fixed joints
    included. *)
Theorem published_names_are_the_registered_joints (shock_p shock_d : float)
    (m : Model) (sdf : option string) (st : CarGazeboPlugin)
    (ticks : list Tick) (tk : Tick) (msg : JointState) :
  Load shock_p shock_d m sdf = Ok st ->
  In (JointStatePublished msg) (snd (Update (exec st ticks) tk)) ->
  NoDup (name msg) /\
  (forall n, In n (name msg) <->
             exists j, In j (GetJoints m) /\ GetType j <> FIXED_JOINT /\ GetName j = n) /\
  (Forall (fun j => HasType j JOINT = true) (GetJoints m) ->
   forall n, In n (name msg) <-> exists j, In j (GetJoints m) /\ GetName j = n).
Proof.
  intros HL Hmsg.
  destruct (Load_inv _ _ _ _ _ HL) as (_ & _ & _ & _ & _ & Hj & _).
  destruct (exec_frame ticks st) as (_ & _ & Hj' & _).
  rewrite (Update_message _ _ _ Hmsg). cbn [name]. rewrite Hj', Hj, map_fmap.
  assert (Hiff : forall n, In n ((map_to_list (registry m)).*1) <->
            exists j, In j (GetJoints m) /\ GetType j <> FIXED_JOINT /\ GetName j = n).
  { intros n. rewrite <- list_elem_of_In, list_elem_of_fmap. split.
    - intros ([n' [j p]] & -> & Hin). apply elem_of_map_to_list in Hin.
      destruct (registry_lookup _ _ _ _ Hin) as (Hjin & Hn & Hty & _).
      exists j. auto.
    - intros (j & Hjin & Hty & Hn).
      destruct (find_joints_registers (GetJoints m) (∅, ∅) n) as [[j' p] Hx].
      { right. exists j. auto. }
      exists (n, (j', p)). split; [reflexivity |].
      apply elem_of_map_to_list. exact Hx. }
  split; [apply NoDup_fst_map_to_list |]. split; [exact Hiff |].
  intros Hall n. rewrite Hiff. split.
  - intros (j & Hin & _ & Hn). exists j. auto.
  - intros (j & Hin & Hn). exists j. split; [exact Hin |]. split; [| exact Hn].
    apply typed_joint_not_skipped.
    rewrite Forall_forall in Hall. apply Hall. apply list_elem_of_In. exact Hin.
Qed.

Lemma published_names_are_the_registered_joints_witness :
  In (JointStatePublished welded_msg)
     (snd (Update (exec welded_plugin [tick_at 1000000]) (tick_at 9000000))) /\
  NoDup (name welded_msg) /\
  In "chassis_weld" (name welded_msg).
Proof.
  assert (H : In (JointStatePublished welded_msg)
                 (snd (Update (exec welded_plugin [tick_at 1000000])
                              (tick_at 9000000))))
    by (vm_compute; right; left; reflexivity).
  assert (Hall : Forall (fun j => HasType j JOINT = true) (GetJoints welded_model))
    by (vm_compute; repeat constructor).
  destruct (published_names_are_the_registered_joints _ _ _ _ _ _ _ _ welded_loaded H)
    as (Hnd & _ & Htyped).
  split; [exact H |]. split; [exact Hnd |].
  apply (proj2 (Htyped Hall "chassis_weld")).
  exists (mkJoint "chassis_weld" weld). split; [| reflexivity].
  vm_compute. do 11 right. left. reflexivity.
Defined.

(** ** Joints that share a name *)

(** X7: in a model whose joints all carry the JOINT type bit, as Gazebo's
    joints do, the registry keeps under each name the last joint of that
    name in GetJoints order, with the PID (200, 0, 0), whatever its kind: a
    later fixed joint replaces an earlier hinge of the same name. *)
Theorem registry_keeps_last_of_a_name (m : Model) (pre post : list Joint) (j : Joint) :
  Forall (fun a => HasType a JOINT = true) (GetJoints m) ->
  GetJoints m = pre ++ j :: post ->
  (forall j', In j' post -> GetName j' <> GetName j) ->
  registry m !! GetName j = Some (j, mkPID 200%float 0%float 0%float).
Proof.
  intros Hall Hm Hpost.
  apply (registry_last_not_skipped m pre post j Hm).
  - apply typed_joint_not_skipped.
    rewrite Forall_forall in Hall. apply Hall. apply list_elem_of_In.
    rewrite Hm. apply in_or_app. right. left. reflexivity.
  - intros j' Hin _. exact (Hpost j' Hin).
Qed.

Lemma registry_keeps_last_of_a_name_witness :
  registry (mkModel "car" [mkJoint "a" hinge; mkJoint "b" slider;
                           mkJoint "a" weld] (mkJC ∅ ∅ ∅ ∅)) !! "a" =
    Some (mkJoint "a" weld, mkPID 200%float 0%float 0%float).
Proof.
  apply (registry_keeps_last_of_a_name
           (mkModel "car" [mkJoint "a" hinge; mkJoint "b" slider;
                           mkJoint "a" weld] (mkJC ∅ ∅ ∅ ∅))
           [mkJoint "a" hinge; mkJoint "b" slider] [] (mkJoint "a" weld)).
  - repeat constructor.
  - reflexivity.
  - intros j' [].
Defined.

(** X8: after Load, and after any world updates, joint_targets_ holds 0.0 for
    exactly the names in the registry. *)
Theorem joint_targets_cover_registry (shock_p shock_d : float) (m : Model)
    (sdf : option string) (st : CarGazeboPlugin) (ticks : list Tick) (n : string) :
  Load shock_p shock_d m sdf = Ok st ->
  joint_targets_ (exec st ticks) !! n =
    match joints_ (exec st ticks) !! n with
    | Some _ => Some 0%float
    | None => None
    end.
Proof.
  intros HL.
  destruct (Load_inv _ _ _ _ _ HL) as (_ & _ & _ & _ & _ & Hj & Ht & _).
  destruct (exec_frame ticks st) as (_ & -> & -> & _).
  rewrite Hj, Ht. unfold registry.
  pose proof (find_joints_same_keys (GetJoints m) (∅, ∅)) as Hk.
  specialize (Hk ltac:(intros k; cbn; rewrite !lookup_empty; split; intros [? ?]; discriminate) n).
  destruct (snd (find_joints (GetJoints m) (∅, ∅)) !! n) as [x |] eqn:Ex.
  - destruct (proj2 Hk (ltac:(eauto))) as [e ->].
    destruct (find_joints_targets _ _ _ _ Ex) as [Hx | ->]; [| reflexivity].
    cbn in Hx. rewrite lookup_empty in Hx. discriminate.
  - destruct (fst (find_joints (GetJoints m) (∅, ∅)) !! n) as [e |] eqn:Ee;
      [| reflexivity].
    destruct (proj1 Hk (ltac:(eauto))) as [x Hx]. discriminate.
Qed.

Lemma joint_targets_cover_registry_witness :
  Load 30000%float 1000%float demo_model None = Ok demo_plugin /\
  joint_targets_ (exec demo_plugin [tick_at 1000000]) !! "lidar_mount_joint" =
    Some 0%float /\
  joint_targets_ (exec demo_plugin [tick_at 1000000]) !! "chassis_to_base_joint" = None.
Proof.
  split; [exact demo_loaded |]. split.
  - rewrite (joint_targets_cover_registry _ _ _ _ _ [tick_at 1000000]
               "lidar_mount_joint" demo_loaded).
    vm_compute. reflexivity.
  - rewrite (joint_targets_cover_registry _ _ _ _ _ [tick_at 1000000]
               "chassis_to_base_joint" demo_loaded).
    vm_compute. reflexivity.
Defined.

(** ** What Load does not depend on, and what it does not write *)

Ltac bind_role_both H :=
  match type of H with
  | context [get_joint ?J ?n] =>
      destruct (get_joint J n); cbn [bind] in H |- *; [| discriminate H]
  end.

(** X9: the robotNamespace element only decides the robot_namespace_ field:
    Load succeeds with or without it, and the topics, the registry, the
    role bindings and the controller tables are the same. *)
Theorem load_ignores_namespace (shock_p shock_d : float) (m : Model)
    (sdf sdf' : option string) (st : CarGazeboPlugin) :
  Load shock_p shock_d m sdf = Ok st ->
  Load shock_p shock_d m sdf' =
    Ok (set_namespace st (match sdf' with Some ns => ns +:+ "/" | None => "" end)).
Proof.
  intros H. unfold Load in H |- *. rewrite find_joints_pair in H |- *.
  cbn zeta iota beta in H |- *.
  do 10 bind_role_both H.
  injection H as <-. reflexivity.
Qed.

Lemma load_ignores_namespace_witness :
  Load 30000%float 1000%float demo_model None = Ok demo_plugin /\
  Load 30000%float 1000%float demo_model (Some "robot1") =
    Ok (set_namespace demo_plugin "robot1/") /\
  endpoints (set_namespace demo_plugin "robot1/") =
    [Publisher "/joint_states" 10; Publisher "/car/odo_fl" 10;
     Publisher "/car/odo_fr" 10; Publisher "/car/cmd_ackermann" 10;
     Subscription "/joy" 2; Subscription "/car/cmd_ackermann" 2].
Proof.
  split; [exact demo_loaded |]. split.
  - exact (load_ignores_namespace _ _ demo_model None (Some "robot1") _ demo_loaded).
  - vm_compute. reflexivity.
Defined.

(** X10: Load writes the controller only at the role joints: position targets
    for the four shocks and nothing else (no steering target, no velocity
    target at all), position PIDs for the shocks and the two steering
    joints, velocity PIDs for the two rear axles.  Every other entry of the
    controller is what the model's controller had. *)
Theorem load_writes_only_role_entries (shock_p shock_d : float) (m : Model)
    (sdf : option string) (st : CarGazeboPlugin) :
  Load shock_p shock_d m sdf = Ok st ->
  let jc0 := GetJointController m in
  let shocks := ["front_left_shock_joint"; "front_right_shock_joint";
                 "back_left_shock_joint"; "back_right_shock_joint"] in
  let steers := ["front_left_wheel_steer_joint"; "front_right_wheel_steer_joint"] in
  let rear := ["back_left_wheel_joint"; "back_right_wheel_joint"] in
  velocities (jc st) = velocities jc0 /\
  (forall k, ~ In k (map (scoped_name m) shocks) ->
     positions (jc st) !! k = positions jc0 !! k) /\
  (forall k, ~ In k (map (scoped_name m) (shocks ++ steers)) ->
     posPids (jc st) !! k = posPids jc0 !! k) /\
  (forall k, ~ In k (map (scoped_name m) rear) ->
     velPids (jc st) !! k = velPids jc0 !! k).
Proof.
  intros H.
  destruct (Load_inv _ _ _ _ _ H) as (_ & _ & _ & _ & _ & _ & _ & -> & _).
  cbn zeta. cbn [velocities positions posPids velPids map app].
  unfold loaded_positions, loaded_posPids, loaded_velPids. cbn zeta.
  split; [reflexivity |].
  repeat split; intros k Hk; cbn [In] in Hk;
    rewrite !lookup_insert_ne by (intros <-; apply Hk; tauto); reflexivity.
Qed.

Lemma load_writes_only_role_entries_witness :
  Load 30000%float 1000%float demo_model None = Ok demo_plugin /\
  velocities (jc demo_plugin) = ∅ /\
  positions (jc demo_plugin) !! "car::front_left_wheel_steer_joint" = None.
Proof.
  split; [exact demo_loaded |].
  destruct (load_writes_only_role_entries _ _ _ _ _ demo_loaded) as (A & B & _).
  split; [exact A |].
  rewrite (B "car::front_left_wheel_steer_joint"); [reflexivity |].
  cbn. intros [Hc | [Hc | [Hc | [Hc | []]]]]; discriminate Hc.
Defined.
